(** * Fuel-price survey: ingestion and dashboard aggregation (app.py)

    A shallow embedding of the two routes of [app.py]:
    - [upload_file]: cleaning of an uploaded survey file, the anti-join
      against the keys already stored, and the append into the table
      [precos_combustiveis] with its [UNIQUE(cnpj_revenda, data_coleta,
      produto)] constraint;
    - [dashboard]: the KPIs, the 30-row rolling mean of the per-date mean
      price of the four most frequent products, and the price histogram
      of the most common product.

    The embedding.
    - [upload_file] starts from what [pd.read_csv] makes of the file: an
      exception, or a frame with its column names and rows.  A cell of a
      key column has the type that [read_csv] inferred for its column
      (text, integer, float, boolean, or missing), since [astype(str)]
      prints each of them in its own way.
    - What the table keeps of an inserted value follows the affinity of
      its column: a price text that reads as a number is stored as that
      number.
    - Strings are byte strings, the UTF-8 form of the program's texts;
      numbers are exact rationals (rounding of binary floating point is not
      modelled).
    - The SQLite table, which [init_db] creates, is the list of its rows
      in rowid order. *)

From Stdlib Require Import List Sorted Permutation Bool Arith ZArith QArith Qround Lia Lqa.
From Stdlib Require Import Ascii String DecimalString.
Import ListNotations.

Local Close Scope Q_scope.
Local Open Scope string_scope.
Local Open Scope list_scope.
Local Open Scope nat_scope.

(** ** Text: [str.strip] *)

Module Text.

(** [str.isspace] on a character of one byte: U+0009 to U+000D, U+001C to
    U+001F and the space. *)
Definition isspace (c : ascii) : bool :=
  let n := nat_of_ascii c in
  ((9 <=? n) && (n <=? 13)) || ((28 <=? n) && (n <=? 32)).

(** The white space of two bytes in UTF-8: U+0085 and U+00A0. *)
Definition isspace2 (a b : ascii) : bool :=
  (nat_of_ascii a =? 194)
  && ((nat_of_ascii b =? 133) || (nat_of_ascii b =? 160)).

(** The white space of three bytes in UTF-8: U+1680, U+2000 to U+200A,
    U+2028, U+2029, U+202F, U+205F and U+3000. *)
Definition isspace3 (a b c : ascii) : bool :=
  let x := nat_of_ascii a in
  let y := nat_of_ascii b in
  let z := nat_of_ascii c in
  ((x =? 225) && (y =? 154) && (z =? 128))
  || ((x =? 226) && (y =? 128)
      && (((128 <=? z) && (z <=? 138)) || (z =? 168) || (z =? 169) || (z =? 175)))
  || ((x =? 226) && (y =? 129) && (z =? 159))
  || ((x =? 227) && (y =? 128) && (z =? 128)).

(** What is left of a text once the white-space characters that open it
    are taken away; [w1], [w2] and [w3] recognise a white-space character
    of one, two and three bytes. *)
Fixpoint strip_front (w1 : ascii -> bool) (w2 : ascii -> ascii -> bool)
  (w3 : ascii -> ascii -> ascii -> bool) (s : list ascii) : list ascii :=
  match s with
  | [] => []
  | a :: r =>
      if w1 a then strip_front w1 w2 w3 r
      else match r with
           | b :: r2 =>
               if w2 a b then strip_front w1 w2 w3 r2
               else match r2 with
                    | c :: r3 =>
                        if w3 a b c then strip_front w1 w2 w3 r3 else s
                    | [] => s
                    end
           | [] => s
           end
  end.

Definition lstrip_bytes (s : list ascii) : list ascii :=
  strip_front isspace isspace2 isspace3 s.

(** The same from the end: the text is read backwards, and so is each
    character. *)
Definition rstrip_bytes (s : list ascii) : list ascii :=
  rev (strip_front isspace (fun a b => isspace2 b a)
         (fun a b c => isspace3 c b a) (rev s)).

Definition lstrip (s : string) : string :=
  string_of_list_ascii (lstrip_bytes (list_ascii_of_string s)).

Definition rstrip (s : string) : string :=
  string_of_list_ascii (rstrip_bytes (list_ascii_of_string s)).

(** [s.strip()] *)
Definition strip (s : string) : string :=
  string_of_list_ascii (rstrip_bytes (lstrip_bytes (list_ascii_of_string s))).

(** Whether a white-space character opens the text. *)
Definition opens (w1 : ascii -> bool) (w2 : ascii -> ascii -> bool)
  (w3 : ascii -> ascii -> ascii -> bool) (s : list ascii) : bool :=
  match s with
  | [] => false
  | a :: r =>
      w1 a
      || match r with
         | b :: r2 =>
             w2 a b || match r2 with c :: _ => w3 a b c | [] => false end
         | [] => false
         end
  end.

(** [str(n)] of an integer. *)
Definition str_int (z : Z) : string := NilZero.string_of_int (Z.to_int z).

Definition isdigit (c : ascii) : bool :=
  let n := nat_of_ascii c in
  (48 <=? n) && (n <=? 57).

(** The digits that open [s]: the number they add to [acc], how many they
    are added to [n], and the rest of [s]. *)
Fixpoint digits (acc : Z) (n : nat) (s : list ascii) : Z * nat * list ascii :=
  match s with
  | c :: r =>
      if isdigit c
      then digits (10 * acc + Z.of_nat (nat_of_ascii c - 48))%Z (S n) r
      else (acc, n, s)
  | [] => (acc, n, s)
  end.

Definition sign (s : list ascii) : bool * list ascii :=
  match s with
  | "-"%char :: r => (true, r)
  | "+"%char :: r => (false, r)
  | _ => (false, s)
  end.

(** An exponent part, if one opens [s]: its value, whether it has a digit,
    and the rest. *)
Definition expoente (s : list ascii) : Z * bool * list ascii :=
  match s with
  | c :: r =>
      if Ascii.eqb c "e" || Ascii.eqb c "E"
      then let '(neg, r1) := sign r in
           let '(e, n, r2) := digits 0 0 r1 in
           ((if neg then - e else e)%Z, 0 <? n, r2)
      else (0%Z, true, s)
  | [] => (0%Z, true, s)
  end.

(** The decimal literal that opens [s] (sign, digits, fraction, exponent,
    with a digit before or after the point) and the rest of [s]. *)
Definition numero_bytes (s : list ascii) : option (Q * list ascii) :=
  let '(neg, s1) := sign s in
  let '(m1, n1, s2) := digits 0 0 s1 in
  let '(m, n2, s3) :=
    match s2 with
    | "."%char :: r => digits m1 0 r
    | _ => (m1, 0, s2)
    end in
  let '(e, ok, s4) := expoente s3 in
  if (0 <? n1 + n2) && ok
  then Some ((inject_Z (if neg then - m else m)
              * Qpower (10 # 1) (e - Z.of_nat n2))%Q, s4)
  else None.

(** [astype(str)] on a column read from the table: a string is itself, a
    missing value prints as [na] (['None'] for a SQL NULL). *)
Definition astype_str (na : string) (c : option string) : string :=
  match c with
  | Some s => s
  | None => na
  end.

Fixpoint split_on (sep : ascii) (s : string) : list string :=
  match s with
  | EmptyString => [EmptyString]
  | String c s' =>
      if Ascii.eqb c sep then EmptyString :: split_on sep s'
      else match split_on sep s' with
           | [] => [String c EmptyString]
           | h :: t => String c h :: t
           end
  end.

End Text.

(** ** Calendar dates, [strptime] and [strftime] *)

Module Data.

Record date := mkDate { year : nat; month : nat; day : nat }.

Definition is_leap (y : nat) : bool :=
  ((y mod 4 =? 0) && negb (y mod 100 =? 0)) || (y mod 400 =? 0).

Definition days_in_month (y m : nat) : nat :=
  match m with
  | 1 | 3 | 5 | 7 | 8 | 10 | 12 => 31
  | 4 | 6 | 9 | 11 => 30
  | 2 => if is_leap y then 29 else 28
  | _ => 0
  end.

(** Lexicographic order on (year, month, day). *)
Definition compare (a b : date) : comparison :=
  match Nat.compare (year a) (year b) with
  | Eq => match Nat.compare (month a) (month b) with
          | Eq => Nat.compare (day a) (day b)
          | c => c
          end
  | c => c
  end.

Definition leb (a b : date) : bool :=
  match compare a b with Gt => false | _ => true end.

Definition eqb (a b : date) : bool :=
  (year a =? year b) && (month a =? month b) && (day a =? day b).

(** A [Timestamp] has nanosecond resolution: midnights from 1677-09-22 to
    2262-04-11 are representable, and the day must exist in its month. *)
Definition ts_min : date := mkDate 1677 9 22.
Definition ts_max : date := mkDate 2262 4 11.

Definition valid (d : date) : bool :=
  (1 <=? month d) && (month d <=? 12) &&
  (1 <=? day d) && (day d <=? days_in_month (year d) (month d)) &&
  leb ts_min d && leb d ts_max.

Definition digit_val (c : ascii) : option nat :=
  let n := nat_of_ascii c in
  if (48 <=? n) && (n <=? 57) then Some (n - 48) else None.

Definition digit_chr (n : nat) : ascii := ascii_of_nat (48 + n mod 10).

(** The [%d] directive: [3[0-1]|[1-2]\d|0[1-9]|[1-9]| [1-9]]. *)
Definition parse_d (s : string) : option nat :=
  match s with
  | String a EmptyString =>
      match digit_val a with
      | Some n => if 1 <=? n then Some n else None
      | None => None
      end
  | String a (String b EmptyString) =>
      match digit_val b with
      | None => None
      | Some n =>
          if Ascii.eqb a " "%char then (if 1 <=? n then Some n else None)
          else match digit_val a with
               | Some 0 => if 1 <=? n then Some n else None
               | Some 1 => Some (10 + n)
               | Some 2 => Some (20 + n)
               | Some 3 => if n <=? 1 then Some (30 + n) else None
               | _ => None
               end
      end
  | _ => None
  end.

(** The [%m] directive: [1[0-2]|0[1-9]|[1-9]]. *)
Definition parse_m (s : string) : option nat :=
  match s with
  | String a EmptyString =>
      match digit_val a with
      | Some n => if 1 <=? n then Some n else None
      | None => None
      end
  | String a (String b EmptyString) =>
      match digit_val a, digit_val b with
      | Some 0, Some n => if 1 <=? n then Some n else None
      | Some 1, Some n => if n <=? 2 then Some (10 + n) else None
      | _, _ => None
      end
  | _ => None
  end.

(** The [%Y] directive: [\d\d\d\d]. *)
Definition parse_Y (s : string) : option nat :=
  match s with
  | String a (String b (String c (String d EmptyString))) =>
      match digit_val a, digit_val b, digit_val c, digit_val d with
      | Some x, Some y, Some z, Some w =>
          Some (1000 * x + 100 * y + 10 * z + w)
      | _, _, _, _ => None
      end
  | _ => None
  end.

(** Two digits, zero padded, as the ISO form [%m] and [%d] are written. *)
Definition parse_2 (s : string) : option nat :=
  match s with
  | String a (String b EmptyString) =>
      match digit_val a, digit_val b with
      | Some x, Some y => Some (10 * x + y)
      | _, _ => None
      end
  | _ => None
  end.

Definition existing_day (d : date) : option date :=
  if valid d then Some d else None.

(** [pd.to_datetime(s, format='%d/%m/%Y', errors='coerce')] on one text:
    the whole text must match, the date must exist; otherwise NaT. *)
Definition to_datetime_dmy (s : string) : option date :=
  match Text.split_on "/"%char s with
  | [d; m; y] =>
      match parse_d d, parse_m m, parse_Y y with
      | Some dd, Some mm, Some yy => existing_day (mkDate yy mm dd)
      | _, _, _ => None
      end
  | _ => None
  end.

(** [pd.to_datetime(s, errors='coerce')] on one text of the stored column,
    whose texts are the [%Y-%m-%d] forms that [upload_file] writes (the
    format guessed from them); any other text is NaT. *)
Definition to_datetime_iso (s : string) : option date :=
  match Text.split_on "-"%char s with
  | [y; m; d] =>
      match parse_Y y, parse_2 m, parse_2 d with
      | Some yy, Some mm, Some dd => existing_day (mkDate yy mm dd)
      | _, _, _ => None
      end
  | _ => None
  end.

Definition two_digits (n : nat) : string :=
  String (digit_chr (n / 10)) (String (digit_chr n) EmptyString).

Definition four_digits (n : nat) : string :=
  String (digit_chr (n / 1000))
    (String (digit_chr (n / 100))
       (String (digit_chr (n / 10)) (String (digit_chr n) EmptyString))).

(** [strftime('%Y-%m-%d')] *)
Definition strftime_ymd (d : date) : string :=
  four_digits (year d) ++ "-" ++ two_digits (month d) ++ "-"
    ++ two_digits (day d).

(** [strftime('%d/%m/%Y')] *)
Definition strftime_dmy (d : date) : string :=
  two_digits (day d) ++ "/" ++ two_digits (month d) ++ "/"
    ++ four_digits (year d).

End Data.

(** ** Frames and the table [precos_combustiveis] *)

(** A cell of a price column, in the frame and in the table: missing, a
    number (a cell of a column that [read_csv(delimiter=';', decimal=',')]
    typed as numbers, by its value), or a text (a cell of a column that did
    not convert). *)
Inductive cell :=
| NaN
| Num (q : Q)
| Txt (s : string).

(** One row under the eleven names of [colunas_db]: a record of the table
    (the autoincrement [id] is the position in the list), and a row of
    [df_new] once its key cells are normalized. *)
Record registro := mkRegistro {
  regiao_sigla : option string;
  estado_sigla : option string;
  municipio : option string;
  revenda : option string;
  cnpj_revenda : option string;
  produto : option string;
  data_coleta : option string;
  valor_venda : cell;
  valor_compra : cell;
  unidade_medida : option string;
  bandeira : option string
}.

(** The columns [cnpj_revenda, data_coleta, produto]. *)
Definition chave : Type := (option string * option string * option string)%type.

Definition chave_de (r : registro) : chave :=
  (cnpj_revenda r, data_coleta r, produto r).

Definition ostring_eq_dec (a b : option string) : {a = b} + {a <> b}.
Proof. decide equality. apply string_dec. Defined.

Definition chave_eq_dec (a b : chave) : {a = b} + {a <> b}.
Proof. decide equality; try apply ostring_eq_dec. decide equality; apply ostring_eq_dec. Defined.

Definition isna (c : option string) : bool :=
  match c with None => true | Some _ => false end.

Definition cell_isna (c : cell) : bool :=
  match c with NaN => true | _ => false end.

(** ** What SQLite keeps of a value *)

Module Sqlite.

Definition isspace (c : ascii) : bool :=
  let n := nat_of_ascii c in
  (n =? 32) || ((9 <=? n) && (n <=? 13)).

Fixpoint skip_space (s : list ascii) : list ascii :=
  match s with
  | c :: r => if isspace c then skip_space r else s
  | [] => []
  end.

(** The number that a text is, when all of it is a decimal literal with
    blanks around it at most: the texts that a column of numeric affinity
    turns into numbers. *)
Definition numero (s : string) : option Q :=
  match Text.numero_bytes (skip_space (list_ascii_of_string s)) with
  | Some (q, r) =>
      match skip_space r with
      | [] => Some q
      | _ => None
      end
  | None => None
  end.

(** A value bound to a [REAL] column. *)
Definition afinidade_real (c : cell) : cell :=
  match c with
  | Txt s =>
      match numero s with
      | Some q => Num q
      | None => Txt s
      end
  | _ => c
  end.

(** A row as the table keeps it.  The [TEXT] columns keep a text as it is;
    so does the [DATE] column for a text that is no number, and no date
    written by [upload_file] is one ([data_nova_texto] below). *)
Definition armazenar (r : registro) : registro :=
  mkRegistro (regiao_sigla r) (estado_sigla r) (municipio r) (revenda r)
    (cnpj_revenda r) (produto r) (data_coleta r)
    (afinidade_real (valor_venda r)) (afinidade_real (valor_compra r))
    (unidade_medida r) (bandeira r).

End Sqlite.

(** ** The frame read from the uploaded file *)

Module Csv.

(** A cell of a key column, by the type [read_csv] gave it: missing, a
    text, an integer, a float (given by the text that [str] prints for
    it) or a boolean. *)
Inductive valor :=
| Falta
| Texto (s : string)
| Inteiro (z : Z)
| Flutuante (py : string)
| Logico (b : bool).

Definition isna (v : valor) : bool :=
  match v with Falta => true | _ => false end.

(** [str(x)], the text that [astype(str)] puts in the place of a cell. *)
Definition astype_str (v : valor) : string :=
  match v with
  | Falta => "nan"
  | Texto s => s
  | Inteiro z => Text.str_int z
  | Flutuante py => py
  | Logico true => "True"
  | Logico false => "False"
  end.

(** What two cells are compared by when duplicates are looked for: a number
    by its value (so [1], [1.0] and [True] are equal, and so are [0.0] and
    [-0.0]), any other cell by itself. *)
Inductive comparado :=
| CNum (q : Q)
| COutro (v : valor).

Definition comparar (v : valor) : comparado :=
  match v with
  | Inteiro z => CNum (Qred (inject_Z z))
  | Logico b => CNum (if b then 1 # 1 else 0 # 1)
  | Flutuante py =>
      match Text.numero_bytes (list_ascii_of_string py) with
      | Some (q, []) => CNum (Qred q)
      | _ => COutro v
      end
  | _ => COutro v
  end.

(** One row of the frame, under the names given by [rename].  The key
    cells are as read; a price cell is a [cell]; each of the six text
    columns that the program only stores is given by the text that the
    table keeps for the cell; [outras] are the cells of the columns of the
    file that have none of the eleven names. *)
Record linha := mkLinha {
  regiao_sigla : option string;
  estado_sigla : option string;
  municipio : option string;
  revenda : option string;
  cnpj_revenda : valor;
  produto : valor;
  data_coleta : valor;
  valor_venda : cell;
  valor_compra : cell;
  unidade_medida : option string;
  bandeira : option string;
  outras : list valor
}.

(** The key cells of a row as [drop_duplicates] compares them. *)
Definition chave : Type := (comparado * comparado * comparado)%type.

Definition chave_de (r : linha) : chave :=
  (comparar (cnpj_revenda r), comparar (data_coleta r), comparar (produto r)).

Definition valor_eq_dec (a b : valor) : {a = b} + {a <> b}.
Proof.
  decide equality; [apply string_dec | apply Z.eq_dec | apply string_dec
                   | apply Bool.bool_dec].
Defined.

Definition comparado_eq_dec (a b : comparado) : {a = b} + {a <> b}.
Proof.
  decide equality; [|apply valor_eq_dec].
  decide equality; [apply Pos.eq_dec | apply Z.eq_dec].
Defined.

Definition chave_eq_dec (a b : chave) : {a = b} + {a <> b}.
Proof.
  decide equality; try apply comparado_eq_dec.
  decide equality; apply comparado_eq_dec.
Defined.

(** What [pd.read_csv] makes of the file: an exception (an empty file, a
    file that is not UTF-8, rows of uneven length), or a frame with the
    column names of the header and the rows. *)
Inductive leitura :=
| Ilegivel
| Lido (cabecalho : list string) (linhas : list linha).

End Csv.

Module Ingest.

(** [df.rename(columns={...})] on one column name. *)
Definition rename (c : string) : string :=
  if String.eqb c "Regiao - Sigla" then "regiao_sigla"
  else if String.eqb c "Estado - Sigla" then "estado_sigla"
  else if String.eqb c "Municipio" then "municipio"
  else if String.eqb c "Revenda" then "revenda"
  else if String.eqb c "CNPJ da Revenda" then "cnpj_revenda"
  else if String.eqb c "Produto" then "produto"
  else if String.eqb c "Data da Coleta" then "data_coleta"
  else if String.eqb c "Valor de Venda" then "valor_venda"
  else if String.eqb c "Valor de Compra" then "valor_compra"
  else if String.eqb c "Unidade de Medida" then "unidade_medida"
  else if String.eqb c "Bandeira" then "bandeira"
  else c.

Definition colunas_db : list string :=
  [ "regiao_sigla"; "estado_sigla"; "municipio"; "revenda"; "cnpj_revenda";
    "produto"; "data_coleta"; "valor_venda"; "valor_compra";
    "unidade_medida"; "bandeira" ].

(** The [subset] of lines 135 and 136, the [on] of line 144. *)
Definition chaves : list string := ["cnpj_revenda"; "data_coleta"; "produto"].

(** The names that [merge(..., indicator=True)] refuses in a frame. *)
Definition reservadas : list string :=
  ["_left_indicator"; "_right_indicator"; "_merge"].

(** Whether the frame has a column of that name. *)
Definition tem (cols : list string) (c : string) : bool :=
  existsb (String.eqb c) cols.

(** Whether the frame has two columns of that name. *)
Definition repetida (cols : list string) (c : string) : bool :=
  1 <? count_occ string_dec cols c.

(** Which of the eleven cells of a row are missing. *)
Definition faltas (r : Csv.linha) : list (string * bool) :=
  [ ("regiao_sigla", isna (Csv.regiao_sigla r));
    ("estado_sigla", isna (Csv.estado_sigla r));
    ("municipio", isna (Csv.municipio r));
    ("revenda", isna (Csv.revenda r));
    ("cnpj_revenda", Csv.isna (Csv.cnpj_revenda r));
    ("produto", Csv.isna (Csv.produto r));
    ("data_coleta", Csv.isna (Csv.data_coleta r));
    ("valor_venda", cell_isna (Csv.valor_venda r));
    ("valor_compra", cell_isna (Csv.valor_compra r));
    ("unidade_medida", isna (Csv.unidade_medida r));
    ("bandeira", isna (Csv.bandeira r)) ].

(** [df.dropna(how='all')]: a row goes when every cell of the columns that
    the frame has is missing. *)
Definition all_na (cols : list string) (r : Csv.linha) : bool :=
  forallb (fun c => negb (tem cols (fst c)) || snd c) (faltas r)
  && forallb Csv.isna (Csv.outras r).

Definition dropna_all (cols : list string) (df : list Csv.linha)
  : list Csv.linha :=
  filter (fun r => negb (all_na cols r)) df.

(** [df.dropna(subset=['cnpj_revenda', 'data_coleta', 'produto'])] *)
Definition key_present (r : Csv.linha) : bool :=
  negb (Csv.isna (Csv.cnpj_revenda r)) && negb (Csv.isna (Csv.data_coleta r))
  && negb (Csv.isna (Csv.produto r)).

Definition dropna_subset (df : list Csv.linha) : list Csv.linha :=
  filter key_present df.

(** [df.drop_duplicates(subset=[...])]: the first row of each key stays. *)
Fixpoint drop_duplicates_from (seen : list Csv.chave) (df : list Csv.linha)
  : list Csv.linha :=
  match df with
  | [] => []
  | r :: t =>
      if in_dec Csv.chave_eq_dec (Csv.chave_de r) seen
      then drop_duplicates_from seen t
      else r :: drop_duplicates_from (Csv.chave_de r :: seen) t
  end.

Definition drop_duplicates (df : list Csv.linha) : list Csv.linha :=
  drop_duplicates_from [] df.

(** Lines 133-136: the frame after the three cleaning steps, key cells
    still as read. *)
Definition limpar (cols : list string) (df : list Csv.linha)
  : list Csv.linha :=
  drop_duplicates (dropna_subset (dropna_all cols df)).

(** [col.astype(str).str.strip()] on one cell, [str] being what
    [astype(str)] prints for a cell of the column. *)
Definition strip_col {A : Type} (str : A -> string) (c : A) : option string :=
  Some (Text.strip (str c)).

(** [pd.to_datetime(col, format='%d/%m/%Y', errors='coerce')
       .dt.strftime('%Y-%m-%d')] on one cell: a text is parsed; a cell that
    is no text is missing or is printed, matches no date and is coerced
    to [NaT]. *)
Definition data_nova (c : Csv.valor) : option string :=
  match c with
  | Csv.Texto s => option_map Data.strftime_ymd (Data.to_datetime_dmy s)
  | _ => None
  end.

(** [pd.to_datetime(col, errors='coerce').dt.strftime('%Y-%m-%d')] on one
    cell of [existing_records]. *)
Definition data_existente (c : option string) : option string :=
  match c with
  | None => None
  | Some s => option_map Data.strftime_ymd (Data.to_datetime_iso s)
  end.

(** Lines 137-141 on one row of [df_new]. *)
Definition normalizar (r : Csv.linha) : registro :=
  mkRegistro (Csv.regiao_sigla r) (Csv.estado_sigla r) (Csv.municipio r)
    (Csv.revenda r)
    (strip_col Csv.astype_str (Csv.cnpj_revenda r))
    (strip_col Csv.astype_str (Csv.produto r))
    (data_nova (Csv.data_coleta r))
    (Csv.valor_venda r) (Csv.valor_compra r)
    (Csv.unidade_medida r) (Csv.bandeira r).

(** [df_new] as it reaches the merge. *)
Definition df_new (cols : list string) (df : list Csv.linha) : list registro :=
  map normalizar (limpar cols df).

(** Lines 139-140 and 142-143 on one row of [existing_records]. *)
Definition normalizar_existente (k : chave) : chave :=
  match k with
  | (c, d, p) =>
      (strip_col (Text.astype_str "None") c, data_existente d,
       strip_col (Text.astype_str "None") p)
  end.

(** [existing_records] as it reaches the merge; every step is guarded by
    [if not existing_records.empty]. *)
Definition existing_records (db : list registro) : list chave :=
  let existing := map chave_de db in
  match existing with
  | [] => existing
  | _ => map normalizar_existente existing
  end.

(** The [_merge] indicator of a left join. *)
Inductive indicador := left_only | both.

Definition casa (r : registro) (k : chave) : bool :=
  if chave_eq_dec (chave_de r) k then true else false.

(** [left.merge(right, on=[...], how='left', indicator=True)]: every left
    row, in order, once per right row of equal key (missing values match
    each other), or once as [left_only] when there is none. *)
Fixpoint merge_left (left : list registro) (right : list chave)
  : list (registro * indicador) :=
  match left with
  | [] => []
  | r :: t =>
      match filter (casa r) right with
      | [] => [(r, left_only)]
      | ms => map (fun _ => (r, both)) ms
      end ++ merge_left t right
  end.

(** [df_merged[df_merged['_merge'] == 'left_only']] *)
Definition so_left_only (m : list (registro * indicador)) : list registro :=
  map fst
    (filter (fun x => match snd x with left_only => true | both => false end) m).

(** [UNIQUE(cnpj_revenda, data_coleta, produto)]: two rows conflict when
    their three key values are equal and none is NULL. *)
Definition sem_nulos (k : chave) : bool :=
  match k with
  | (c, d, p) => negb (isna c) && negb (isna d) && negb (isna p)
  end.

Definition conflita (a b : registro) : bool :=
  sem_nulos (chave_de a)
  && (if chave_eq_dec (chave_de a) (chave_de b) then true else false).

(** [to_sql(..., if_exists='append')]: the rows are inserted in order in
    one transaction, each as the table keeps it; an [IntegrityError] rolls
    all of them back. *)
Fixpoint to_sql (tabela : list registro) (rows : list registro)
  : option (list registro) :=
  match rows with
  | [] => Some tabela
  | r :: t =>
      if existsb (conflita r) tabela then None
      else to_sql (tabela ++ [Sqlite.armazenar r]) t
  end.

Inductive resposta :=
| Sucesso (novos duplicados : Z)
| Falha.

(** Whether lines 135-144 go through on a frame of these columns: the
    three key columns are there ([KeyError] at line 135 otherwise), none
    of them twice (lines 138 and 141 raise on a frame in the place of a
    column), and no column has a name that the merge keeps to itself. *)
Definition colunas_ok (cols : list string) : bool :=
  forallb (tem cols) chaves
  && negb (existsb (repetida cols) chaves)
  && negb (existsb (tem cols) reservadas).

(** The body of the [try] of [upload_file] (lines 130-154) on the table
    made by [init_db]: from what [read_csv] makes of the file and the
    table to the response and the table.  Every exception ends in the
    failure response of line 157 and leaves the table as it was. *)
Definition upload_file (db : list registro) (arq : Csv.leitura)
  : resposta * list registro :=
  match arq with
  | Csv.Ilegivel => (Falha, db)
  | Csv.Lido cabecalho linhas =>
      let cols := map rename cabecalho in
      if negb (colunas_ok cols) then (Falha, db)
      else
        let existing := existing_records db in
        let new := df_new cols linhas in
        let df_merged := merge_left new existing in
        let df_to_insert := so_left_only df_merged in
        let novos := Z.of_nat (List.length df_to_insert) in
        let duplicados := (Z.of_nat (List.length new) - novos)%Z in
        match df_to_insert with
        | [] => (Sucesso novos duplicados, db)
        | _ =>
            if negb (forallb (tem cols) colunas_db) then (Falha, db)
            else
              match to_sql db df_to_insert with
              | Some db' => (Sucesso novos duplicados, db')
              | None => (Falha, db)
              end
        end
  end.

(** The tables that uploads build from the empty table of [init_db]. *)
Inductive alcancavel : list registro -> Prop :=
| alc_init : alcancavel []
| alc_upload db arq :
    alcancavel db -> alcancavel (snd (upload_file db arq)).

End Ingest.

(** A record with the given key and price cells. *)
Definition linha (cnpj data prod : option string) (venda compra : cell)
  : registro :=
  mkRegistro (Some "SE") (Some "SP") (Some "SAO PAULO") (Some "POSTO")
    cnpj prod data venda compra (Some "R$ / litro") (Some "BRANCA").

(** The same as a row of a file, with the key cells as read. *)
Definition lida (cnpj data prod : Csv.valor) (venda compra : cell)
  : Csv.linha :=
  Csv.mkLinha (Some "SE") (Some "SP") (Some "SAO PAULO") (Some "POSTO")
    cnpj prod data venda compra (Some "R$ / litro") (Some "BRANCA") [].

(** The header of a survey file, and the frame read from such a file. *)
Definition cabecalho : list string :=
  [ "Regiao - Sigla"; "Estado - Sigla"; "Municipio"; "Revenda";
    "CNPJ da Revenda"; "Produto"; "Data da Coleta"; "Valor de Venda";
    "Valor de Compra"; "Unidade de Medida"; "Bandeira" ].

Definition csv (linhas : list Csv.linha) : Csv.leitura :=
  Csv.Lido cabecalho linhas.

(** The column names of the frame read from a survey file. *)
Definition colunas_csv : list string := map Ingest.rename cabecalho.

(** ** The dashboard *)

Module Dash.

(** A row of [df] after [pd.to_datetime(df['data_coleta'])]: the columns
    the views read. *)
Record obs := mkObs {
  dia : option Data.date;
  prod : option string;
  uf : option string;
  venda : option Q
}.

(** [pd.to_datetime] without [errors=]: a text that is no date raises
    [ValueError] ([None] here); NULL is NaT. *)
Definition to_datetime (c : option string) : option (option Data.date) :=
  match c with
  | None => Some None
  | Some s => option_map Some (Data.to_datetime_iso s)
  end.

Definition venda_de (c : cell) : option Q :=
  match c with Num q => Some q | _ => None end.

(** Lines 58-59; [None] when [to_datetime] raises. *)
Fixpoint read_frame (db : list registro) : option (list obs) :=
  match db with
  | [] => Some []
  | r :: t =>
      match to_datetime (data_coleta r), read_frame t with
      | Some d, Some l =>
          Some (mkObs d (produto r) (estado_sigla r) (venda_de (valor_venda r)) :: l)
      | _, _ => None
      end
  end.

(** The column [valor_venda] read back is numeric unless a text was stored
    in it. *)
Definition is_text (c : cell) : bool :=
  match c with Txt _ => true | _ => false end.

Definition coluna_numerica (db : list registro) : bool :=
  forallb (fun r => negb (is_text (valor_venda r))) db.

Fixpoint dropna {A : Type} (l : list (option A)) : list A :=
  match l with
  | [] => []
  | Some x :: t => x :: dropna t
  | None :: t => dropna t
  end.

Definition Qsum (l : list Q) : Q := fold_right Qplus (0 # 1)%Q l.

Definition Qnat (n : nat) : Q := inject_Z (Z.of_nat n).

(** [Series.mean()]: the mean of the values present, NaN when there is none. *)
Definition mean (l : list (option Q)) : option Q :=
  match dropna l with
  | [] => None
  | xs => Some (Qsum xs / Qnat (List.length xs))%Q
  end.

(** *** 1. KPIs *)

Fixpoint min_data (l : list Data.date) : option Data.date :=
  match l with
  | [] => None
  | d :: t =>
      match min_data t with
      | None => Some d
      | Some m => Some (if Data.leb d m then d else m)
      end
  end.

Fixpoint max_data (l : list Data.date) : option Data.date :=
  match l with
  | [] => None
  | d :: t =>
      match max_data t with
      | None => Some d
      | Some m => Some (if Data.leb m d then d else m)
      end
  end.

(** *** 2. Time series *)

(** The rows that [groupby(['data_coleta', 'produto'])] keeps: both keys
    present. *)
Definition agrupavel (o : obs) : bool :=
  match dia o, prod o with
  | Some _, Some _ => true
  | _, _ => false
  end.

Fixpoint insert_data (d : Data.date) (l : list Data.date) : list Data.date :=
  match l with
  | [] => [d]
  | y :: t =>
      match Data.compare d y with
      | Lt => d :: y :: t
      | Eq => y :: t
      | Gt => y :: insert_data d t
      end
  end.

Fixpoint insert_nome (p : string) (l : list string) : list string :=
  match l with
  | [] => [p]
  | y :: t =>
      match String.compare p y with
      | Lt => p :: y :: t
      | Eq => y :: t
      | Gt => y :: insert_nome p t
      end
  end.

(** The index of [df_serie_temporal]: the dates of the groups, ascending. *)
Definition indice (df : list obs) : list Data.date :=
  fold_right insert_data [] (dropna (map dia (filter agrupavel df))).

(** The columns of [df_serie_temporal]: the products of the groups. *)
Definition colunas (df : list obs) : list string :=
  fold_right insert_nome [] (dropna (map prod (filter agrupavel df))).

Definition no_grupo (d : Data.date) (p : string) (o : obs) : bool :=
  match dia o, prod o with
  | Some d', Some p' => Data.eqb d d' && String.eqb p p'
  | _, _ => false
  end.

(** One cell of [groupby(...)['valor_venda'].mean().unstack()]: the mean
    of the group, NaN where the product has no row on that date. *)
Definition celula (df : list obs) (d : Data.date) (p : string) : option Q :=
  mean (map venda (filter (no_grupo d p) df)).

(** [df_serie_temporal[produto]] *)
Definition coluna (df : list obs) (p : string) : list (option Q) :=
  map (fun d => celula df d p) (indice df).

Definition conta (p : string) (df : list obs) : nat :=
  List.length (filter (fun o => match prod o with
                                | Some p' => String.eqb p p'
                                | None => false
                                end) df).

(** The distinct products in order of first occurrence. *)
Fixpoint distintos (seen : list string) (l : list string) : list string :=
  match l with
  | [] => []
  | p :: t =>
      if in_dec string_dec p seen then distintos seen t
      else p :: distintos (p :: seen) t
  end.

Fixpoint insert_desc (f : string -> nat) (p : string) (l : list string)
  : list string :=
  match l with
  | [] => [p]
  | y :: t => if f y <? f p then p :: y :: t else y :: insert_desc f p t
  end.

(** [df['produto'].value_counts().index]: by count, descending.  Among
    products of equal count pandas gives the order that its sorting routine
    happens to leave; here they stay in order of first occurrence, an
    order of this definition, and what is proved of the selection below
    is stated up to the order among equal counts. *)
Definition value_counts (df : list obs) : list string :=
  fold_left (fun acc p => insert_desc (fun x => conta x df) p acc)
    (distintos [] (dropna (map prod df))) [].

(** [value_counts().nlargest(4).index] *)
Definition principais_produtos (df : list obs) : list string :=
  firstn 4 (value_counts df).

(** The running state of a rolling mean: the rows of the window, the sum
    and the number of the observations present in it. *)
Record janela := mkJanela {
  linhas : list (option Q);
  soma : Q;
  nobs : nat
}.

Definition add_mean (x : option Q) (j : janela) : janela :=
  match x with
  | Some v => mkJanela (linhas j ++ [x]) (soma j + v)%Q (S (nobs j))
  | None => mkJanela (linhas j ++ [x]) (soma j) (nobs j)
  end.

Definition remove_mean (j : janela) : janela :=
  match linhas j with
  | [] => j
  | Some v :: t => mkJanela t (soma j - v)%Q (pred (nobs j))
  | None :: t => mkJanela t (soma j) (nobs j)
  end.

Definition calc_mean (minp : nat) (j : janela) : option Q :=
  if (minp <=? nobs j) && (1 <=? nobs j)
  then Some (soma j / Qnat (nobs j))%Q
  else None.

(** One step of the window: the row that leaves is removed, the new one is
    added, the mean of the window is emitted. *)
Fixpoint roll (window minp : nat) (j : janela) (xs : list (option Q))
  : list (option Q) :=
  match xs with
  | [] => []
  | x :: t =>
      let j1 := if window <=? List.length (linhas j) then remove_mean j else j in
      let j2 := add_mean x j1 in
      calc_mean minp j2 :: roll window minp j2 t
  end.

(** [s.rolling(window=w, min_periods=m).mean()] *)
Definition rolling_mean (window minp : nat) (s : list (option Q))
  : list (option Q) :=
  roll window minp (mkJanela [] (0 # 1)%Q 0) s.

(** The lines drawn by the loop of lines 81-83, with their labels. *)
Definition plot_serie_temporal (df : list obs)
  : list (string * list (option Q)) :=
  map (fun p => (p, rolling_mean 30 1 (coluna df p)))
    (filter (fun p => if in_dec string_dec p (colunas df) then true else false)
       (principais_produtos df)).

(** *** 3. Geographic ranking *)

Definition no_estado (e : string) (o : obs) : bool :=
  match uf o with
  | Some e' => String.eqb e e'
  | None => false
  end.

(** [df.groupby('estado_sigla')['valor_venda'].mean()]: one entry per
    state, by state name. *)
Definition preco_por_estado (df : list obs) : list (string * option Q) :=
  map (fun e => (e, mean (map venda (filter (no_estado e) df))))
    (fold_right insert_nome [] (dropna (map uf df))).

Fixpoint insert_valor (asc : bool) (x : string * Q) (l : list (string * Q))
  : list (string * Q) :=
  match l with
  | [] => [x]
  | y :: t =>
      let before := if asc then negb (Qle_bool (snd y) (snd x))
                    else negb (Qle_bool (snd x) (snd y)) in
      if before then x :: y :: t else y :: insert_valor asc x t
  end.

Definition presentes (l : list (string * option Q)) : list (string * Q) :=
  flat_map (fun x => match snd x with
                     | Some v => [(fst x, v)]
                     | None => []
                     end) l.

Definition ausentes (l : list (string * option Q)) : list (string * option Q) :=
  filter (fun x => match snd x with None => true | Some _ => false end) l.

(** [Series.sort_values(ascending=asc)]: the values present in order, the
    missing ones last.  Among entries of equal value pandas gives the order
    that its sorting routine happens to leave; here they keep their order,
    an order of this definition, and what is proved of the rankings below
    is stated up to the order among equal values. *)
Definition sort_values (asc : bool) (l : list (string * option Q))
  : list (string * option Q) :=
  map (fun x => (fst x, Some (snd x)))
    (fold_left (fun acc x => insert_valor asc x acc) (presentes l) [])
  ++ ausentes l.

Definition head {A : Type} (n : nat) (l : list A) : list A := firstn n l.

Definition tail {A : Type} (n : nat) (l : list A) : list A :=
  skipn (List.length l - n) l.

(** *** 4. Price distribution *)

(** [Series.mode()]: the most frequent values, sorted. *)
Definition mode (df : list obs) : list string :=
  let ps := distintos [] (dropna (map prod df)) in
  let m := fold_right Nat.max 0 (map (fun p => conta p df) ps) in
  fold_right insert_nome [] (filter (fun p => conta p df =? m) ps).

(** [df[df['produto'] == p]['valor_venda']] *)
Definition precos_de (p : string) (df : list obs) : list (option Q) :=
  map venda (filter (fun o => match prod o with
                              | Some p' => String.eqb p' p
                              | None => false
                              end) df).

Definition Qmin_list (x : Q) (l : list Q) : Q :=
  fold_left (fun m y => if Qle_bool y m then y else m) l x.

Definition Qmax_list (x : Q) (l : list Q) : Q :=
  fold_left (fun m y => if Qle_bool m y then y else m) l x.

(** The bin of [x] among [bins] equal bins over [lo, hi]: bins are closed
    on the left, the last one on both sides.  The edges are exact here;
    numpy rounds them, so a value that lies on an edge may be counted in
    the bin next to it, which changes neither the number of bins nor the
    total. *)
Definition bin_of (bins : nat) (lo hi x : Q) : nat :=
  if Qeq_bool x hi then pred bins
  else Z.to_nat (Qfloor ((x - lo) * Qnat bins / (hi - lo))%Q).

(** [plt.hist(x, bins=n)]: the range is that of the values present (half
    a unit to each side when they are all equal); [None] when no value is
    present and the range is not finite ([ValueError]). *)
Definition hist (bins : nat) (x : list (option Q)) : option (list nat) :=
  match dropna x with
  | [] => None
  | v :: vs =>
      let lo0 := Qmin_list v vs in
      let hi0 := Qmax_list v vs in
      let lo := if Qeq_bool lo0 hi0 then (lo0 - (1 # 2))%Q else lo0 in
      let hi := if Qeq_bool lo0 hi0 then (hi0 + (1 # 2))%Q else hi0 in
      Some (map (fun i => List.length
                            (filter (fun y => bin_of bins lo hi y =? i) (v :: vs)))
              (seq 0 bins))
  end.

(** *** The route *)

Inductive valor :=
| VInt (n : nat)
| VStr (s : string)
| VFloat (x : option Q)
| VDict (d : list (string * option Q)).

Inductive figura :=
| Linhas (indice : list Data.date) (linhas : list (string * list (option Q)))
| Histograma (titulo : string) (contagens : list nat).

(** What [dashboard] hands to the template: the flashed message, the
    [analyses] dictionary in insertion order and the figures saved; or an
    exception that nothing catches. *)
Inductive saida :=
| Pagina (flash : list string) (analyses : list (string * valor))
    (figuras : list figura)
| Excecao.

Definition banco_vazio : saida :=
  Pagina ["Bem-vindo ao Fuel-Analyzer! Sua base de dados está vazia. Comece enviando um arquivo."]
    [] [].

Definition analisar (db : list registro) (df : list obs) : saida :=
  if negb (coluna_numerica db) then Excecao else
  let dias := dropna (map dia df) in
  match min_data dias, max_data dias, mode df with
  | Some d0, Some d1, produto_mais_comum :: _ =>
      match hist 30 (precos_de produto_mais_comum df) with
      | None => Excecao
      | Some contagens =>
          let preco_medio_estado := sort_values true (preco_por_estado df) in
          Pagina []
            [ ("kpi_total_registros", VInt (List.length df));
              ("kpi_data_inicio", VStr (Data.strftime_dmy d0));
              ("kpi_data_fim", VStr (Data.strftime_dmy d1));
              ("kpi_preco_medio_geral", VFloat (mean (map venda df)));
              ("plot_serie_temporal", VStr "static/images/plot_serie_temporal.png");
              ("top_5_estados_baratos", VDict (head 5 preco_medio_estado));
              ("top_5_estados_caros",
               VDict (sort_values false (tail 5 preco_medio_estado)));
              ("plot_distribuicao_precos",
               VStr "static/images/plot_distribuicao_precos.png");
              ("produto_analisado", VStr produto_mais_comum) ]
            [ Linhas (indice df) (plot_serie_temporal df);
              Histograma ("Distribuição de Preços para " ++ produto_mais_comum)
                contagens ]
      end
  | _, _, _ => Excecao
  end.

(** The route [/]: lines 56-112. *)
Definition dashboard (db : list registro) : saida :=
  match read_frame db with
  | None => banco_vazio
  | Some [] => banco_vazio
  | Some df => analisar db df
  end.

End Dash.

(** ** The file-name gate of the upload route *)

Module Rota.

Definition ALLOWED_EXTENSIONS : list string := ["csv"].

(** ['.' in s] *)
Fixpoint contains (c : ascii) (s : string) : bool :=
  match s with
  | EmptyString => false
  | String x s' => Ascii.eqb x c || contains c s'
  end.

(** The cut of [s.rsplit(sep, 1)] at the last [sep]: the text before it
    and the text after it; [None] when [sep] does not occur. *)
Fixpoint rcut (sep : ascii) (s : string) : option (string * string) :=
  match s with
  | EmptyString => None
  | String c s' =>
      match rcut sep s' with
      | Some (b, a) => Some (String c b, a)
      | None => if Ascii.eqb c sep then Some (EmptyString, s') else None
      end
  end.

(** [s.rsplit(sep, 1)] *)
Definition rsplit1 (sep : ascii) (s : string) : list string :=
  match rcut sep s with
  | Some (b, a) => [b; a]
  | None => [s]
  end.

(** [str.lower] on one byte: the letters A-Z; no other character
    lowercases to a letter of an allowed extension. *)
Definition lower_chr (c : ascii) : ascii :=
  let n := nat_of_ascii c in
  if (65 <=? n) && (n <=? 90) then ascii_of_nat (n + 32) else c.

Fixpoint lower (s : string) : string :=
  match s with
  | EmptyString => EmptyString
  | String c s' => String (lower_chr c) (lower s')
  end.

(** Lines 50-51. *)
Definition allowed_file (filename : string) : bool :=
  contains "."%char filename
  && match rsplit1 "."%char filename with
     | [_; ext] => existsb (String.eqb (lower ext)) ALLOWED_EXTENSIONS
     | _ => false
     end.

End Rota.

(** ** The properties of the specification, in its own words *)

Module Spec.

(** The normalized key triple of a stored record: trimmed seller id,
    canonical date, trimmed product. *)
Definition chave_normalizada (r : registro) : chave :=
  Ingest.normalizar_existente (chave_de r).

(** A row whose [collection_date] text parses as day/month/year. *)
Definition data_ok (r : Csv.linha) : bool :=
  match Csv.data_coleta r with
  | Csv.Texto s =>
      match Data.to_datetime_dmy s with Some _ => true | None => false end
  | _ => false
  end.

(** Valid rows: neither entirely empty nor rejected for a missing or
    unparsable key field. *)
Definition valid_row (cols : list string) (r : Csv.linha) : bool :=
  negb (Ingest.all_na cols r) && Ingest.key_present r && data_ok r.

Definition valid_row_count (cols : list string) (arquivo : list Csv.linha)
  : Z :=
  Z.of_nat (List.length (filter (valid_row cols) arquivo)).


(** The rows from position [max(1, i-29)] to [i] (1-based) of a series;
    [i] is given 0-based here. *)
Definition trailing (window : nat) (s : list (option Q)) (i : nat)
  : list (option Q) :=
  skipn (S i - window) (firstn (S i) s).

(** The series of one product: its per-date mean sale prices, one sample
    per date on which the product has a record. *)
Definition serie_do_produto (df : list Dash.obs) (p : string)
  : list (option Q) :=
  map (fun d => Dash.celula df d p)
    (filter (fun d => existsb (Dash.no_grupo d p) df) (Dash.indice df)).

(** The smoothed values drawn for one product, read at the dates of its
    own samples. *)
Definition suavizada_do_produto (df : list Dash.obs) (p : string)
  : list (option Q) :=
  map snd
    (filter (fun dv => existsb (Dash.no_grupo (fst dv) p) df)
       (combine (Dash.indice df) (Dash.rolling_mean 30 1 (Dash.coluna df p)))).

(** The most frequent product, the first to occur among those of equal
    count. *)
Definition mais_frequente_primeiro (df : list Dash.obs) : option string :=
  let ps := Dash.distintos [] (Dash.dropna (map Dash.prod df)) in
  let m := fold_right Nat.max 0 (map (fun p => Dash.conta p df) ps) in
  List.hd_error (filter (fun p => Dash.conta p df =? m) ps).

End Spec.

(** Equality of optional rationals: both missing, or equal as numbers. *)
Definition oQeq (a b : option Q) : Prop :=
  match a, b with
  | None, None => True
  | Some x, Some y => (x == y)%Q
  | _, _ => False
  end.

(** The order of [sort_values] on optional prices: ascending or descending
    on the values present, every value before a missing one. *)
Definition ordem (asc : bool) (a b : option Q) : Prop :=
  match a, b with
  | Some x, Some y => if asc then (x <= y)%Q else (y <= x)%Q
  | _, None => True
  | None, Some _ => False
  end.

(** The order kept by [insert_valor] on the values present. *)
Definition ordem_q (asc : bool) (a b : string * Q) : Prop :=
  if asc then (snd a <= snd b)%Q else (snd b <= snd a)%Q.

(** Descending by [f], the order of [value_counts]. *)
Definition mais (f : string -> nat) (a b : string) : Prop := f b <= f a.

(** The running sum and count of a window agree with the rows it holds. *)
Definition janela_ok (j : Dash.janela) : Prop :=
  (Dash.soma j == Dash.Qsum (Dash.dropna (Dash.linhas j)))%Q
  /\ Dash.nobs j = List.length (Dash.dropna (Dash.linhas j)).

(** Strictly before, in the order of [sorted] on strings. *)
Definition antes (a b : string) : Prop := String.compare a b = Lt.

(** ** Inputs used below *)

Definition q5 : Q := 5 # 1.

Definition gas (cnpj data : string) (venda : cell) : registro :=
  linha (Some cnpj) (Some data) (Some "Gas") venda NaN.

(** A row of a file whose key cells are texts. *)
Definition gas_lido (cnpj data : string) (venda : cell) : Csv.linha :=
  lida (Csv.Texto cnpj) (Csv.Texto data) (Csv.Texto "Gas") venda NaN.

(** The scenario of the specification: a repeated row within one file. *)
Definition arquivo_repetido : list Csv.linha :=
  [ gas_lido "A" "01/01/2024" (Num q5);
    gas_lido "A" "01/01/2024" (Num q5);
    gas_lido "B" "01/01/2024" (Num (51 # 10)) ].

(** Two rows that differ by a leading blank in the seller id. *)
Definition arquivo_espaco : list Csv.linha :=
  [ gas_lido " A" "01/01/2024" (Num q5); gas_lido "A" "01/01/2024" (Num q5) ].

(** A row whose date is no calendar day. *)
Definition arquivo_data_ruim : list Csv.linha :=
  [ gas_lido "A" "31/02/2024" (Num q5) ].

(** Two rows of one seller and product whose dates do not parse. *)
Definition arquivo_sem_data : list Csv.linha :=
  [ gas_lido "A" "2024-01-01" (Num q5); gas_lido "A" "01-01-2024" (Num q5) ].

(** A row whose sale price is not a number. *)
Definition arquivo_preco_ruim : list Csv.linha :=
  [ lida (Csv.Texto "A") (Csv.Texto "01/01/2024") (Csv.Texto "Gas")
      (Txt "abc") (Txt "n/d") ].

(** A file whose seller ids are digits only: [read_csv] types the column
    as integers. *)
Definition arquivo_inteiro : list Csv.linha :=
  [ lida (Csv.Inteiro 3188000121) (Csv.Texto "01/01/2024") (Csv.Texto "Gas")
      (Num q5) NaN ].

(** A file with the same row and a row that has no seller id: [read_csv]
    types the column as floats. *)
Definition arquivo_flutuante : list Csv.linha :=
  [ lida (Csv.Flutuante "3188000121.0") (Csv.Texto "01/01/2024")
      (Csv.Texto "Gas") (Num q5) NaN;
    lida Csv.Falta (Csv.Texto "02/01/2024") (Csv.Texto "Gas") (Num q5) NaN ].

(** A table with 32 collection dates: product "X" on the first and on the
    last, product "Y" on the thirty in between. *)
Definition preco (prod data : string) (v : Z) : registro :=
  linha (Some "A") (Some data) (Some prod) (Num (inject_Z v)) NaN.

Definition db_32_datas : list registro :=
  preco "X" "2024-01-01" 1
  :: map (fun k => preco "Y" (Data.strftime_ymd (Data.mkDate 2024 1 k)) 2)
       (seq 2 30)
  ++ [preco "X" "2024-02-01" 3].

(** A table in which two products occur once each. *)
Definition db_empate : list registro :=
  [ preco "Gas" "2024-01-01" 5; preco "Alc" "2024-01-02" 4 ].

(** A frame with one collection date. *)
Definition df_uma_data : list Dash.obs :=
  [ Dash.mkObs (Some (Data.mkDate 2024 1 1)) (Some "Gas") (Some "SP")
      (Some (5 # 1)%Q) ].

(** ** Facts about the ingestion *)

Section IngestFacts.

Import Ingest.

Lemma filter_nil_existsb {A : Type} (f : A -> bool) (l : list A) :
  filter f l = [] <-> existsb f l = false.
Proof.
  induction l as [|x t IH]; simpl; [tauto|].
  destruct (f x); simpl; [split; discriminate | exact IH].
Qed.

Lemma so_left_only_app m1 m2 :
  so_left_only (m1 ++ m2) = so_left_only m1 ++ so_left_only m2.
Proof. unfold so_left_only. now rewrite filter_app, map_app. Qed.

Lemma so_left_only_both (r : registro) (ms : list chave) :
  so_left_only (map (fun _ => (r, both)) ms) = [].
Proof. induction ms; simpl; auto. Qed.

(** The rows to insert are the rows of [df_new] whose key is the key of no
    stored record: the anti-join. *)
Lemma so_left_only_merge left right :
  so_left_only (merge_left left right)
  = filter (fun r => negb (existsb (casa r) right)) left.
Proof.
  induction left as [|r t IH]; simpl; [reflexivity|].
  rewrite so_left_only_app, IH.
  destruct (filter (casa r) right) as [|k ks] eqn:E.
  - apply filter_nil_existsb in E. rewrite E. reflexivity.
  - assert (existsb (casa r) right = true) as ->.
    { destruct (existsb (casa r) right) eqn:X; auto.
      apply filter_nil_existsb in X. congruence. }
    simpl negb. cbv iota.
    change ((r, both) :: map (fun _ => (r, both)) ks)
      with (map (fun _ : chave => (r, both)) (k :: ks)).
    now rewrite so_left_only_both.
Qed.

Lemma casa_true r k : casa r k = true <-> chave_de r = k.
Proof. unfold casa. destruct (chave_eq_dec (chave_de r) k); split; auto; discriminate. Qed.

Lemma in_so_left_only left right r :
  In r (so_left_only (merge_left left right))
  <-> In r left /\ ~ In (chave_de r) right.
Proof.
  rewrite so_left_only_merge, filter_In. split; intros [H1 H2]; split; auto.
  - intros Hin. apply negb_true_iff in H2.
    assert (existsb (casa r) right = true); [|congruence].
    apply existsb_exists. exists (chave_de r). split; auto. now apply casa_true.
  - apply negb_true_iff. destruct (existsb (casa r) right) eqn:E; auto.
    apply existsb_exists in E as (k & Hk & Hc). apply casa_true in Hc.
    subst k. contradiction.
Qed.

Lemma in_merge_both left right r :
  In r left -> In (chave_de r) right -> In (r, both) (merge_left left right).
Proof.
  induction left as [|x t IH]; simpl; [tauto|].
  intros [->|Hin] Hk; apply in_or_app; [left | right; auto].
  assert (In (chave_de r) (filter (casa r) right)) as Hf.
  { apply filter_In. split; auto. now apply casa_true. }
  destruct (filter (casa r) right) as [|k ks]; [destruct Hf|].
  simpl. now left.
Qed.

Lemma in_merge_left_only left right r :
  In (r, left_only) (merge_left left right) -> ~ In (chave_de r) right.
Proof.
  intros H Hk.
  assert (In r (so_left_only (merge_left left right))) as Hs.
  { unfold so_left_only. apply in_map_iff. exists (r, left_only). split; auto.
    apply filter_In. split; auto. }
  apply in_so_left_only in Hs. tauto.
Qed.

Lemma existing_records_map db :
  existing_records db = map normalizar_existente (map chave_de db).
Proof. unfold existing_records. destruct (map chave_de db); reflexivity. Qed.

Lemma to_sql_app tabela rows tabela' :
  to_sql tabela rows = Some tabela' ->
  tabela' = tabela ++ map Sqlite.armazenar rows.
Proof.
  revert tabela. induction rows as [|r t IH]; simpl; intros tabela H.
  - injection H as <-. now rewrite app_nil_r.
  - destruct (existsb (conflita r) tabela); [discriminate|].
    apply IH in H. now rewrite <- app_assoc in H.
Qed.

Lemma colunas_ok_chaves cols :
  colunas_ok cols = true -> forallb (tem cols) chaves = true.
Proof.
  unfold colunas_ok. intros H.
  apply andb_true_iff in H as [H _]. now apply andb_true_iff in H as [H _].
Qed.

(** A successful upload read a frame that has the key columns, appends
    exactly the anti-join, each row as the table keeps it, and reports the
    size of the anti-join and the rest of the cleaned batch. *)
Lemma upload_file_sucesso db cab arquivo n d db' :
  upload_file db (Csv.Lido cab arquivo) = (Sucesso n d, db') ->
  let cols := map rename cab in
  let ins := so_left_only (merge_left (df_new cols arquivo) (existing_records db)) in
  colunas_ok cols = true
  /\ db' = db ++ map Sqlite.armazenar ins
  /\ n = Z.of_nat (List.length ins)
  /\ d = (Z.of_nat (List.length (df_new cols arquivo)) - n)%Z.
Proof.
  unfold upload_file. cbv zeta.
  destruct (colunas_ok (map rename cab)); cbn [negb]; [|discriminate].
  destruct (so_left_only _) as [|x xs] eqn:E.
  - intros H. injection H as <- <- <-. cbn [map]. now rewrite app_nil_r.
  - destruct (forallb (tem (map rename cab)) colunas_db); cbn [negb];
      [|discriminate].
    destruct (to_sql db (x :: xs)) as [t|] eqn:T; [|discriminate].
    intros H. injection H as <- <- <-. apply to_sql_app in T. auto.
Qed.

Lemma upload_file_lido db arq n d db' :
  upload_file db arq = (Sucesso n d, db') ->
  exists cab arquivo, arq = Csv.Lido cab arquivo.
Proof. destruct arq as [|cab arquivo]; [discriminate|]. eauto. Qed.

(** A failed upload leaves the table as it was. *)
Lemma upload_file_falha db arq db' :
  upload_file db arq = (Falha, db') -> db' = db.
Proof.
  destruct arq as [|cab arquivo]; [now intros [= <-]|].
  unfold upload_file. cbv zeta.
  destruct (colunas_ok _); cbn [negb]; [|now intros [= <-]].
  destruct (so_left_only _); [discriminate|].
  destruct (forallb _ colunas_db); cbn [negb]; [|now intros [= <-]].
  destruct (to_sql db _); [discriminate|]. now intros [= <-].
Qed.

(** Whatever the outcome, the table only grows by rows of the anti-join. *)
Lemma upload_file_table db cab arquivo :
  exists ins,
    snd (upload_file db (Csv.Lido cab arquivo))
    = db ++ map Sqlite.armazenar ins
    /\ incl ins (so_left_only (merge_left (df_new (map rename cab) arquivo)
                                  (existing_records db))).
Proof.
  destruct (upload_file db (Csv.Lido cab arquivo)) as [[n d|] db'] eqn:U.
  - apply upload_file_sucesso in U as (_ & -> & _).
    eexists. split; [reflexivity|apply incl_refl].
  - apply upload_file_falha in U as ->. exists []. simpl.
    rewrite app_nil_r. split; auto. intros ? [].
Qed.

(** Every row that an upload adds is a normalized row of the file, as the
    table keeps it. *)
Lemma upload_file_normalizadas db arq :
  exists ins,
    snd (upload_file db arq) = db ++ map Sqlite.armazenar ins
    /\ forall r, In r ins -> exists raw, r = normalizar raw.
Proof.
  destruct arq as [|cab arquivo].
  - exists []. simpl. rewrite app_nil_r. split; auto. intros ? [].
  - destruct (upload_file_table db cab arquivo) as (ins & E & Hincl).
    exists ins. split; auto. intros r Hr.
    apply Hincl, in_so_left_only in Hr as [Hr _]. unfold df_new in Hr.
    apply in_map_iff in Hr as (raw & <- & _). now exists raw.
Qed.

End IngestFacts.

(** ** Normalization equivalence in the merge *)

Section Deduplication.

Import Ingest.

(** For key cells read as text: an incoming row whose seller id and product
    equal those of a stored record up to surrounding white space, and whose
    day/month/year date is the calendar day of the stored date, is a
    duplicate.  If it reaches the merge it is marked [both] and never
    [left_only], no row with its key is among the rows to insert, and the
    table gains no row with its key. *)
Lemma normalization_equivalence
  (db : list registro) (cab : list string) (arquivo : list Csv.linha)
  (raw : Csv.linha) (s : registro)
  (a a' p p' d d' : string) (dt : Data.date) :
  In raw arquivo -> In s db ->
  Csv.cnpj_revenda raw = Csv.Texto a -> cnpj_revenda s = Some a' ->
  Text.strip a = Text.strip a' ->
  Csv.produto raw = Csv.Texto p -> produto s = Some p' ->
  Text.strip p = Text.strip p' ->
  Csv.data_coleta raw = Csv.Texto d -> data_coleta s = Some d' ->
  Data.to_datetime_dmy d = Some dt -> Data.to_datetime_iso d' = Some dt ->
  let cols := map rename cab in
  let merged := merge_left (df_new cols arquivo) (existing_records db) in
  (In raw (limpar cols arquivo) ->
   In (normalizar raw, both) merged /\ ~ In (normalizar raw, left_only) merged)
  /\ (forall r, In r (so_left_only merged) ->
        chave_de r <> chave_de (normalizar raw))
  /\ (exists ins, snd (upload_file db (Csv.Lido cab arquivo)) = db ++ ins
        /\ forall r, In r ins -> chave_de r <> chave_de (normalizar raw)).
Proof.
  intros Hraw Hs Ha Ha' Hsa Hp Hp' Hsp Hd Hd' Hdt Hdt' cols merged.
  assert (In (chave_de (normalizar raw)) (existing_records db)) as Hk.
  { rewrite existing_records_map. apply in_map_iff.
    exists (chave_de s). split; [|now apply in_map].
    unfold chave_de, normalizar, normalizar_existente, strip_col.
    cbn [cnpj_revenda produto data_coleta].
    rewrite Ha, Ha', Hp, Hp', Hd, Hd'.
    cbn [Csv.astype_str Text.astype_str data_nova data_existente].
    rewrite Hdt, Hdt'. cbn [option_map].
    now rewrite Hsa, Hsp. }
  assert (forall r, In r (so_left_only merged) ->
            chave_de r <> chave_de (normalizar raw)) as Hnot.
  { intros r Hr E. apply in_so_left_only in Hr as [_ Hr].
    apply Hr. now rewrite E. }
  split; [|split].
  - intros Hl. split.
    + apply in_merge_both; auto. unfold df_new. now apply in_map.
    + intros H. now apply in_merge_left_only in H.
  - exact Hnot.
  - destruct (upload_file_table db cab arquivo) as (ins & E & Hincl).
    exists (map Sqlite.armazenar ins). split; auto.
    intros r Hr. apply in_map_iff in Hr as (r0 & <- & Hr0).
    intros C. apply (Hnot r0); [now apply Hincl|exact C].
Qed.

(** The stored record ["A", 2024-01-01, "Gas"] and an incoming row written
    [" A "], [1/1/2024], ["Gas "]. *)
Lemma normalization_equivalence_witness :
  let db := [gas "A" "2024-01-01" (Num q5)] in
  let raw := lida (Csv.Texto " A ") (Csv.Texto "1/1/2024") (Csv.Texto "Gas ")
               (Num q5) NaN in
  let merged := merge_left (df_new colunas_csv [raw]) (existing_records db) in
  (In raw (limpar colunas_csv [raw]) ->
   In (normalizar raw, both) merged /\ ~ In (normalizar raw, left_only) merged)
  /\ (forall r, In r (so_left_only merged) ->
        chave_de r <> chave_de (normalizar raw))
  /\ (exists ins, snd (upload_file db (csv [raw])) = db ++ ins
        /\ forall r, In r ins -> chave_de r <> chave_de (normalizar raw)).
Proof.
  intros db raw.
  apply (normalization_equivalence db cabecalho [raw] raw
           (gas "A" "2024-01-01" (Num q5))
           " A " "A" "Gas " "Gas" "1/1/2024" "2024-01-01"
           (Data.mkDate 2024 1 1));
    try reflexivity; simpl; auto.
Defined.

(** C3. A seller id of digits only is read as a number.  From a file in
    which every row has one the column is read as integers and the id is
    stored as ['3188000121']; from a file in which a row has none the
    column is read as floats, [astype(str)] prints ['3188000121.0'], and
    the row of the same seller, date and product is no duplicate for the
    merge: it is counted as new and stored a second time. *)
Theorem numeric_seller_stored_twice :
  let db1 := [linha (Some "3188000121") (Some "2024-01-01") (Some "Gas")
                (Num q5) NaN] in
  upload_file [] (csv arquivo_inteiro) = (Sucesso 1 0, db1)
  /\ map Csv.chave_de (dropna_subset arquivo_flutuante)
     = map Csv.chave_de arquivo_inteiro
  /\ upload_file db1 (csv arquivo_flutuante)
     = (Sucesso 1 0,
        db1 ++ [linha (Some "3188000121.0") (Some "2024-01-01") (Some "Gas")
                  (Num q5) NaN])
  /\ upload_file db1 (csv arquivo_inteiro) = (Sucesso 0 1, db1).
Proof. cbv zeta. repeat split; vm_compute; reflexivity. Qed.

End Deduplication.

(** ** Rows that the cleaning lets through *)

Section Cleaning.

Import Ingest.

(** C4. A row dated 31/02/2024 is not rejected: [dropna] runs before the
    date is parsed, so the row reaches the merge with a missing date, is
    counted as new and is stored with a NULL date. *)
Theorem unparsable_date_is_stored :
  Data.to_datetime_dmy "31/02/2024" = None
  /\ upload_file [] (csv arquivo_data_ruim)
     = (Sucesso 1 0,
        [linha (Some "A") None (Some "Gas") (Num q5) NaN]).
Proof. split; reflexivity. Qed.

(** C5. Two rows that differ by a blank before the seller id both survive
    [drop_duplicates], which compares the cells as read; after trimming
    they carry one key, both are [left_only], and the insert breaks the
    UNIQUE constraint, so the upload fails. *)
Theorem intra_batch_duplicates_survive :
  exists r1 r2,
    df_new colunas_csv arquivo_espaco = [r1; r2]
    /\ chave_de r1 = chave_de r2
    /\ so_left_only (merge_left (df_new colunas_csv arquivo_espaco)
                       (existing_records []))
       = [r1; r2]
    /\ upload_file [] (csv arquivo_espaco) = (Falha, []).
Proof. do 2 eexists. repeat split; reflexivity. Qed.

(** C2. The same file uploaded twice: the second upload fails as the
    first did and reports no count. *)
Theorem second_upload_fails :
  upload_file [] (csv arquivo_espaco) = (Falha, [])
  /\ upload_file (snd (upload_file [] (csv arquivo_espaco))) (csv arquivo_espaco)
     = (Falha, []).
Proof. split; reflexivity. Qed.

(** C1. One upload into the empty table leaves two records of seller "A"
    and product "Gas" whose date is missing: a reachable table with two
    records of one normalized key. *)
Theorem two_records_one_key :
  let db := snd (upload_file [] (csv arquivo_sem_data)) in
  alcancavel db
  /\ map Spec.chave_normalizada db
     = [(Some "A", None, Some "Gas"); (Some "A", None, Some "Gas")]
  /\ ~ NoDup (map Spec.chave_normalizada db).
Proof.
  cbv zeta. split; [apply alc_upload, alc_init|]. split; [reflexivity|].
  intros H.
  change (map Spec.chave_normalizada (snd (upload_file [] (csv arquivo_sem_data))))
    with [(Some "A", @None string, Some "Gas"); (Some "A", None, Some "Gas")] in H.
  inversion H as [|? ? Hn _]. apply Hn. now left.
Qed.

End Cleaning.

(** ** Counts and price cells *)

Section Counts.

Import Ingest.

(** A row that has its three key cells is not entirely empty. *)
Lemma key_present_all_na cols r :
  forallb (tem cols) chaves = true -> key_present r = true ->
  all_na cols r = false.
Proof.
  intros Hc Hk. unfold all_na, faltas. cbn [forallb fst snd].
  cbn [forallb chaves] in Hc. apply andb_true_iff in Hc as [Hc _].
  rewrite Hc. unfold key_present in Hk.
  destruct (Csv.isna (Csv.cnpj_revenda r)); [discriminate|].
  cbn [negb orb]. now rewrite !andb_false_r.
Qed.

Lemma dropna_subset_all cols df :
  forallb (tem cols) chaves = true ->
  dropna_subset (dropna_all cols df) = dropna_subset df.
Proof.
  intros Hc. unfold dropna_subset, dropna_all.
  induction df as [|r t IH]; [reflexivity|]. cbn [filter].
  destruct (key_present r) eqn:K.
  - rewrite (key_present_all_na cols r Hc K). cbn [negb filter].
    now rewrite K, IH.
  - destruct (all_na cols r); cbn [negb filter]; [exact IH|].
    now rewrite K.
Qed.

Lemma limpar_subset cols df :
  forallb (tem cols) chaves = true ->
  limpar cols df = drop_duplicates (dropna_subset df).
Proof. intros Hc. unfold limpar. now rewrite dropna_subset_all. Qed.

Lemma length_so_left_only_le left right :
  List.length (so_left_only (merge_left left right)) <= List.length left.
Proof. rewrite so_left_only_merge. apply filter_length_le. Qed.

(** The two counts add up to the size of the cleaned batch, and neither is
    negative. *)
Lemma counts_add_up db cab arquivo n d db' :
  upload_file db (Csv.Lido cab arquivo) = (Sucesso n d, db') ->
  (n + d = Z.of_nat (List.length (limpar (map rename cab) arquivo))
   /\ 0 <= n /\ 0 <= d)%Z.
Proof.
  intros H. apply upload_file_sucesso in H as (_ & _ & Hn & Hd).
  pose proof (length_so_left_only_le (df_new (map rename cab) arquivo)
                (existing_records db)) as L.
  unfold df_new in *. rewrite length_map in *. lia.
Qed.

(** C6, as stated, fails on the scenario of the specification: of three
    rows that are neither empty nor rejected, two are counted. *)
Lemma merge_completeness_counterexample :
  upload_file []%list (csv arquivo_repetido)
  = (Sucesso 2 0, [ gas "A" "2024-01-01" (Num q5);
                    gas "B" "2024-01-01" (Num (51 # 10)) ])
  /\ Spec.valid_row_count colunas_csv arquivo_repetido = 3%Z
  /\ ~ (forall n d db',
          upload_file [] (csv arquivo_repetido) = (Sucesso n d, db') ->
          (n + d)%Z = Spec.valid_row_count colunas_csv arquivo_repetido).
Proof.
  split; [reflexivity|]. split; [reflexivity|].
  intros H. specialize (H 2%Z 0%Z _ eq_refl). vm_compute in H. discriminate.
Qed.

(** C6, amended. For a file in which every date present parses, a
    successful upload reports counts that add up to the number of valid
    rows left once the later rows of a repeated key are dropped. *)
Theorem merge_completeness (db : list registro) (cab : list string)
  (arquivo : list Csv.linha) (n d : Z) (db' : list registro) :
  upload_file db (Csv.Lido cab arquivo) = (Sucesso n d, db') ->
  (forall r, In r arquivo -> key_present r = true -> Spec.data_ok r = true) ->
  (n + d)%Z
  = Z.of_nat (List.length (drop_duplicates
                             (filter (Spec.valid_row (map rename cab)) arquivo))).
Proof.
  intros H Hok.
  pose proof (upload_file_sucesso _ _ _ _ _ _ H) as (Hc & _).
  apply colunas_ok_chaves in Hc.
  apply counts_add_up in H as (-> & _).
  rewrite limpar_subset by exact Hc. do 3 f_equal.
  unfold dropna_subset. apply filter_ext_in. intros r Hr.
  unfold Spec.valid_row.
  destruct (key_present r) eqn:K.
  - rewrite (Hok r Hr K), andb_true_r.
    now rewrite (key_present_all_na _ r Hc K).
  - now rewrite andb_false_r.
Qed.

Lemma merge_completeness_witness :
  (2 + 0)%Z
  = Z.of_nat (List.length (drop_duplicates
                             (filter (Spec.valid_row (map rename cabecalho))
                                arquivo_repetido))).
Proof.
  apply (merge_completeness [] cabecalho arquivo_repetido 2 0
           [ gas "A" "2024-01-01" (Num q5);
             gas "B" "2024-01-01" (Num (51 # 10)) ]).
  - reflexivity.
  - intros r Hr _. simpl in Hr.
    destruct Hr as [<-|[<-|[<-|[]]]]; reflexivity.
Defined.



Lemma afinidade_real_num q : Sqlite.afinidade_real (Num q) = Num q.
Proof. reflexivity. Qed.




End Counts.

(** ** The rolling mean of the time-series view *)

Section Rolling.

Import Dash.

Lemma dropna_app {A : Type} (l1 l2 : list (option A)) :
  dropna (l1 ++ l2) = dropna l1 ++ dropna l2.
Proof.
  induction l1 as [|[x|] t IH]; simpl; auto. now rewrite IH.
Qed.

Lemma Qsum_app l1 l2 : (Qsum (l1 ++ l2) == Qsum l1 + Qsum l2)%Q.
Proof.
  induction l1 as [|x t IH].
  - change (Qsum l2 == 0 + Qsum l2)%Q. lra.
  - change (x + Qsum (t ++ l2) == x + Qsum t + Qsum l2)%Q. rewrite IH. lra.
Qed.

Lemma add_mean_ok x j : janela_ok j -> janela_ok (add_mean x j).
Proof.
  intros [Hs Hn]. destruct x as [v|]; unfold janela_ok, add_mean; simpl;
    rewrite dropna_app, Qsum_app, length_app; simpl.
  - split; [|lia]. rewrite Hs. change (Qsum [v]) with (v + 0)%Q. lra.
  - split; [|lia]. rewrite Hs. change (Qsum []) with (0 # 1)%Q. lra.
Qed.

Lemma remove_mean_ok j : janela_ok j -> janela_ok (remove_mean j).
Proof.
  destruct j as [l s n]. intros [Hs Hn]. unfold janela_ok, remove_mean in *.
  simpl in *. destruct l as [|[v|] t]; simpl in *; auto.
  split; [|lia]. rewrite Hs.
  change (Qsum (v :: dropna t)) with (v + Qsum (dropna t))%Q. lra.
Qed.

Lemma linhas_add_mean x j : linhas (add_mean x j) = linhas j ++ [x].
Proof. destruct x; reflexivity. Qed.

Lemma linhas_remove_mean j : linhas (remove_mean j) = List.tl (linhas j).
Proof. destruct j as [[|[v|] t] s n]; reflexivity. Qed.

Lemma calc_mean_ok j :
  janela_ok j -> oQeq (calc_mean 1 j) (mean (linhas j)).
Proof.
  intros [Hs Hn]. unfold calc_mean, mean.
  destruct (dropna (linhas j)) as [|v vs] eqn:E; simpl in Hn; rewrite Hn; simpl.
  - exact I.
  - rewrite Hs. reflexivity.
Qed.

Lemma tl_skipn {A : Type} (n : nat) (l : list A) :
  List.tl (skipn n l) = skipn (S n) l.
Proof.
  revert l. induction n as [|n IH]; intros [|x t]; simpl; auto.
Qed.

(** The rows held after one more row: the last [window] rows seen. *)
Lemma janela_step {A : Type} (window : nat) (pre : list A) (x : A) :
  1 <= window ->
  (if window <=? List.length (skipn (List.length pre - window) pre)
   then List.tl (skipn (List.length pre - window) pre)
   else skipn (List.length pre - window) pre) ++ [x]
  = skipn (List.length (pre ++ [x]) - window) (pre ++ [x]).
Proof.
  intros Hw. rewrite length_skipn, length_app. simpl.
  destruct (window <=? List.length pre - (List.length pre - window)) eqn:E.
  - apply Nat.leb_le in E. rewrite tl_skipn.
    replace (List.length pre + 1 - window) with (S (List.length pre - window)) by lia.
    rewrite skipn_app.
    replace (S (List.length pre - window) - List.length pre) with 0 by lia.
    reflexivity.
  - apply Nat.leb_gt in E.
    replace (List.length pre - window) with 0 by lia.
    replace (List.length pre + 1 - window) with 0 by lia.
    reflexivity.
Qed.

Lemma roll_length window minp j xs :
  List.length (roll window minp j xs) = List.length xs.
Proof.
  revert j. induction xs as [|x t IH]; simpl; intros j; auto.
Qed.

(** Each value emitted is the mean of the rows present among the last
    [window] rows seen. *)
Lemma roll_trailing window xs :
  1 <= window ->
  forall j pre i,
    janela_ok j ->
    linhas j = skipn (List.length pre - window) pre ->
    i < List.length xs ->
    oQeq (nth i (roll window 1 j xs) None)
      (mean (Spec.trailing window (pre ++ xs) (List.length pre + i))).
Proof.
  intros Hw. induction xs as [|x t IH]; intros j pre i Hok Hl Hi;
    simpl in Hi; [lia|].
  simpl roll.
  set (j1 := if window <=? List.length (linhas j) then remove_mean j else j).
  assert (janela_ok j1) as Hok1.
  { unfold j1. destruct (window <=? _); auto using remove_mean_ok. }
  assert (linhas (add_mean x j1)
          = skipn (List.length (pre ++ [x]) - window) (pre ++ [x])) as Hl2.
  { rewrite linhas_add_mean, <- janela_step by exact Hw. f_equal.
    unfold j1. rewrite <- Hl.
    destruct (window <=? _); [apply linhas_remove_mean | reflexivity]. }
  destruct i as [|i].
  - simpl nth. rewrite Nat.add_0_r. unfold Spec.trailing.
    replace (firstn (S (List.length pre)) (pre ++ x :: t)) with (pre ++ [x]).
    + rewrite length_app in Hl2. simpl in Hl2.
      replace (S (List.length pre)) with (List.length pre + 1) by lia.
      rewrite <- Hl2. apply calc_mean_ok. now apply add_mean_ok.
    + replace (S (List.length pre)) with (List.length pre + 1) by lia.
      rewrite firstn_app_2. reflexivity.
  - simpl nth.
    replace (pre ++ x :: t) with ((pre ++ [x]) ++ t)
      by (rewrite <- app_assoc; reflexivity).
    replace (List.length pre + S i) with (List.length (pre ++ [x]) + i)
      by (rewrite length_app; simpl; lia).
    apply IH; auto using add_mean_ok. lia.
Qed.

Lemma rolling_mean_trailing window s i :
  1 <= window -> i < List.length s ->
  oQeq (nth i (rolling_mean window 1 s) None)
    (mean (Spec.trailing window s i)).
Proof.
  intros Hw Hi. unfold rolling_mean.
  apply (roll_trailing window s Hw (mkJanela [] (0 # 1)%Q 0) [] i); auto.
  split; reflexivity.
Qed.

Lemma oQeq_trans a b c : oQeq a b -> oQeq b c -> oQeq a c.
Proof.
  destruct a, b, c; simpl; auto; try tauto. intros H1 H2. now rewrite H1.
Qed.

Lemma mean_single (x : option Q) : oQeq (mean [x]) x.
Proof.
  destruct x as [v|]; simpl; auto.
  unfold Qsum, Qnat. simpl. field.
Qed.

Lemma filter_all {A : Type} (f : A -> bool) (l : list A) :
  forallb f l = true -> filter f l = l.
Proof.
  induction l as [|x t IH]; simpl; auto.
  intros H. apply andb_true_iff in H as [-> H]. now rewrite IH.
Qed.

Lemma forallb_combine_fst {A B : Type} (f : A -> bool) (l : list A) (m : list B) :
  forallb f l = true -> forallb (fun x => f (fst x)) (combine l m) = true.
Proof.
  revert m. induction l as [|x t IH]; intros [|y m]; simpl; auto.
  intros H. apply andb_true_iff in H as [-> H]. now apply IH.
Qed.

Lemma map_snd_combine {A B : Type} (l : list A) (m : list B) :
  List.length l = List.length m -> map snd (combine l m) = m.
Proof.
  revert m. induction l as [|x t IH]; intros [|y m]; simpl; auto;
    try discriminate.
  intros H. now rewrite IH by lia.
Qed.

(** C8, as stated, fails when the products do not share their dates: with
    "X" on the first and the last of 32 dates, its two samples are 1 and 3,
    and the value drawn at its second sample is 3, not the mean 2 of its
    samples 1 and 2: the window is the last 30 dates of the whole table. *)
Lemma rolling_window_counterexample :
  exists df,
    read_frame db_32_datas = Some df
    /\ In "X" (principais_produtos df)
    /\ Spec.serie_do_produto df "X" = [Some (1 # 1); Some (3 # 1)]%Q
    /\ Spec.suavizada_do_produto df "X" = [Some (1 # 1); Some (3 # 1)]%Q
    /\ ~ (forall i, i < List.length (Spec.serie_do_produto df "X") ->
           oQeq (nth i (Spec.suavizada_do_produto df "X") None)
             (mean (Spec.trailing 30 (Spec.serie_do_produto df "X") i))).
Proof.
  eexists. split; [vm_compute; reflexivity|].
  split; [vm_compute; auto|].
  split; [vm_compute; reflexivity|].
  split; [vm_compute; reflexivity|].
  intros H. specialize (H 1). vm_compute in H.
  assert (1 < 2) as L by lia. specialize (H L). discriminate.
Qed.

(** C8, amended. The series smoothed for a product is its column of the
    date-by-product table: one row per date on which any product has a
    record, missing where this product has none.  The value drawn at row
    [i] (1-based) is the mean of the samples present among rows
    [max(1, i-29)] to [i], missing when none is present.  For a table of one
    date the smoothed value is the raw value; for a column of 30 rows or
    more, row 30 is the mean of the samples of rows 1 to 30; and when the
    product has a record on every date, column and series coincide. *)
Theorem rolling_mean_boundary (df : list obs) (p : string)
  (line : list (option Q)) :
  In (p, line) (plot_serie_temporal df) ->
  let s := coluna df p in
  List.length line = List.length s
  /\ (forall i, i < List.length s ->
        oQeq (nth i line None) (mean (Spec.trailing 30 s i)))
  /\ (List.length s = 1 -> oQeq (nth 0 line None) (nth 0 s None))
  /\ (30 <= List.length s -> oQeq (nth 29 line None) (mean (firstn 30 s)))
  /\ (forallb (fun d => existsb (no_grupo d p) df) (indice df) = true ->
      Spec.serie_do_produto df p = s /\ Spec.suavizada_do_produto df p = line).
Proof.
  intros Hin s. unfold plot_serie_temporal in Hin.
  apply in_map_iff in Hin as (p0 & E & _). injection E as -> <-. fold s.
  assert (List.length (rolling_mean 30 1 s) = List.length s) as Hlen
    by apply roll_length.
  assert (forall i, i < List.length s ->
            oQeq (nth i (rolling_mean 30 1 s) None)
              (mean (Spec.trailing 30 s i))) as Hw.
  { intros i Hi. apply rolling_mean_trailing; [lia|exact Hi]. }
  split; [exact Hlen|]. split; [exact Hw|]. split; [|split].
  - intros H1. eapply oQeq_trans; [apply Hw; lia|].
    destruct s as [|x [|y t]]; try discriminate. apply mean_single.
  - intros H30. apply (Hw 29). lia.
  - intros Hall. unfold Spec.serie_do_produto, Spec.suavizada_do_produto.
    rewrite (filter_all _ _ Hall). split; [reflexivity|].
    rewrite filter_all.
    + apply map_snd_combine. fold s. rewrite Hlen. unfold s, coluna.
      now rewrite length_map.
    + apply (forallb_combine_fst (fun d => existsb (no_grupo d p) df)).
      exact Hall.
Qed.

Lemma rolling_mean_boundary_witness :
  oQeq (nth 0 [Some (5 # 1)%Q] None) (nth 0 (coluna df_uma_data "Gas") None).
Proof.
  apply (rolling_mean_boundary df_uma_data "Gas" [Some (5 # 1)%Q]).
  - left. reflexivity.
  - reflexivity.
Defined.

End Rolling.

(** ** The empty table *)

(** C10. On the empty table the dashboard flashes the empty-database
    message and hands the template an empty [analyses]: no KPI, no ranking,
    no figure, and no exception. *)
Theorem empty_dataset :
  Dash.dashboard [] = Dash.banco_vazio
  /\ exists msg, Dash.banco_vazio = Dash.Pagina [msg] [] [].
Proof. split; [reflexivity|]. eexists. reflexivity. Qed.

(** ** The subject of the distribution view *)

Section Distribution.

Import Dash.

Lemma ascii_compare_lt_trans a b c :
  Ascii.compare a b = Lt -> Ascii.compare b c = Lt -> Ascii.compare a c = Lt.
Proof.
  unfold Ascii.compare. rewrite !N.compare_lt_iff. lia.
Qed.

Lemma antes_trans a b c : antes a b -> antes b c -> antes a c.
Proof.
  unfold antes. revert b c.
  induction a as [|x a IH]; intros [|y b] [|z c]; simpl; try discriminate; auto.
  destruct (Ascii.compare x y) eqn:Exy; try discriminate;
    destruct (Ascii.compare y z) eqn:Eyz; try discriminate; intros H1 H2.
  - apply Ascii.compare_eq_iff in Exy, Eyz. subst.
    replace (Ascii.compare z z) with Eq
      by (unfold Ascii.compare; now rewrite N.compare_refl).
    eapply IH; eauto.
  - apply Ascii.compare_eq_iff in Exy. subst. now rewrite Eyz.
  - apply Ascii.compare_eq_iff in Eyz. subst. now rewrite Exy.
  - now rewrite (ascii_compare_lt_trans _ _ _ Exy Eyz).
Qed.

Lemma string_compare_refl s : String.compare s s = Eq.
Proof.
  induction s as [|c s IH]; simpl; auto.
  unfold Ascii.compare. now rewrite N.compare_refl.
Qed.

Lemma insert_nome_in p l x : In x (insert_nome p l) <-> x = p \/ In x l.
Proof.
  induction l as [|y t IH]; simpl; [intuition|].
  destruct (String.compare p y) eqn:E; simpl.
  - apply String.compare_eq_iff in E. subst. intuition.
  - intuition.
  - rewrite IH. intuition.
Qed.

Lemma insert_nome_sorted p l :
  StronglySorted antes l -> StronglySorted antes (insert_nome p l).
Proof.
  induction 1 as [|y t Hs IH Hy]; simpl.
  - constructor; constructor.
  - destruct (String.compare p y) eqn:E.
    + now constructor.
    + constructor; [now constructor|]. constructor; auto.
      eapply Forall_impl; [|exact Hy]. intros z Hz. eapply antes_trans; eauto.
    + constructor; auto. apply Forall_forall. intros z Hz.
      apply insert_nome_in in Hz as [->|Hz].
      * unfold antes. rewrite String.compare_antisym, E. reflexivity.
      * rewrite Forall_forall in Hy. auto.
Qed.

Lemma sorted_nomes l : StronglySorted antes (fold_right insert_nome [] l).
Proof.
  induction l; simpl; [constructor | now apply insert_nome_sorted].
Qed.

Lemma in_sorted_nomes l x : In x (fold_right insert_nome [] l) <-> In x l.
Proof.
  induction l as [|y t IH]; simpl; [tauto|].
  rewrite insert_nome_in, IH. intuition.
Qed.

(** The head of a sorted list of names comes first in string order. *)
Lemma sorted_head_first p t x :
  StronglySorted antes (p :: t) -> In x (p :: t) -> String.leb p x = true.
Proof.
  intros Hs [<-|Hx]; unfold String.leb.
  - now rewrite string_compare_refl.
  - inversion Hs as [|? ? _ Hall]. rewrite Forall_forall in Hall.
    now rewrite (Hall x Hx).
Qed.

Lemma in_distintos seen l x :
  In x (distintos seen l) <-> In x l /\ ~ In x seen.
Proof.
  revert seen. induction l as [|y t IH]; intros seen; simpl; [tauto|].
  destruct (in_dec string_dec y seen) as [Hy|Hy]; simpl; rewrite IH; simpl;
    destruct (string_dec y x) as [->|Hne]; tauto.
Qed.

Lemma in_dropna {A : Type} (l : list (option A)) x :
  In x (dropna l) <-> In (Some x) l.
Proof.
  induction l as [|[y|] t IH]; simpl; [tauto| |].
  - rewrite IH. split; intros [H|H]; auto; left; congruence.
  - rewrite IH. split; [auto|]. intros [H|H]; [discriminate|auto].
Qed.

Lemma conta_pos p df :
  1 <= conta p df <-> In (Some p) (map prod df).
Proof.
  unfold conta. induction df as [|o t IH]; simpl; [split; [lia|tauto]|].
  destruct (prod o) as [p'|] eqn:E.
  - destruct (String.eqb p p') eqn:Eq; simpl.
    + apply String.eqb_eq in Eq. subst. split; [auto|lia].
    + apply String.eqb_neq in Eq. rewrite IH. split; [auto|].
      intros [H|H]; [congruence|auto].
  - rewrite IH. split; [auto|]. intros [H|H]; [discriminate|auto].
Qed.

Lemma max_ge (f : string -> nat) ps p :
  In p ps -> f p <= fold_right Nat.max 0 (map f ps).
Proof.
  induction ps as [|y t IH]; simpl; [tauto|].
  intros [->|H]; [lia|]. specialize (IH H). lia.
Qed.

(** What [mode()[0]] is: a product that occurs, that no product outnumbers,
    and that comes first in string order among the products as frequent. *)
Lemma mode_head df p t :
  mode df = p :: t ->
  1 <= conta p df
  /\ (forall p', conta p' df <= conta p df)
  /\ (forall p', conta p' df = conta p df -> String.leb p p' = true).
Proof.
  unfold mode. set (ps := distintos [] (dropna (map prod df))).
  set (m := fold_right Nat.max 0 (map (fun x => conta x df) ps)).
  intros E.
  assert (forall x, In x ps <-> 1 <= conta x df) as Hps.
  { intros x. unfold ps. rewrite in_distintos, in_dropna, conta_pos. simpl. tauto. }
  assert (forall x, In x (p :: t) <-> In x ps /\ conta x df = m) as Hin.
  { intros x. rewrite <- E, in_sorted_nomes, filter_In, Nat.eqb_eq. tauto. }
  assert (StronglySorted antes (p :: t)) as Hs.
  { rewrite <- E. apply sorted_nomes. }
  destruct (proj1 (Hin p) (or_introl eq_refl)) as [Hp Hm].
  assert (forall p', conta p' df <= m) as Hmax.
  { intros p'. destruct (Nat.eq_dec (conta p' df) 0) as [->|Hne]; [lia|].
    apply (max_ge (fun x => conta x df)). apply Hps. lia. }
  split; [now apply Hps|]. split.
  - intros p'. rewrite Hm. apply Hmax.
  - intros p' Hc. apply (sorted_head_first p t p' Hs). apply Hin.
    apply Hps in Hp. split; [apply Hps; lia | lia].
Qed.

Lemma list_sum_indicator k s n :
  list_sum (map (fun i => if k =? i then 1 else 0) (seq s n))
  = if (s <=? k) && (k <? s + n) then 1 else 0.
Proof.
  revert s. induction n as [|n IH]; intros s; simpl.
  - destruct (s <=? k) eqn:E1; simpl; auto.
    destruct (k <? s + 0) eqn:E2; auto.
    apply Nat.leb_le in E1. apply Nat.ltb_lt in E2. lia.
  - rewrite IH.
    destruct (k =? s) eqn:E0; destruct (S s <=? k) eqn:E1;
      destruct (k <? S s + n) eqn:E2; destruct (s <=? k) eqn:E3;
      destruct (k <? s + S n) eqn:E4; simpl; auto;
      rewrite ?Nat.eqb_eq, ?Nat.eqb_neq, ?Nat.leb_le, ?Nat.leb_gt,
        ?Nat.ltb_lt, ?Nat.ltb_ge in *; lia.
Qed.

Lemma list_sum_map_add {A : Type} (f g : A -> nat) (l : list A) :
  list_sum (map (fun i => f i + g i) l)
  = list_sum (map f l) + list_sum (map g l).
Proof. induction l; simpl; lia. Qed.

(** Bins that cover every value count every value once. *)
Lemma count_bins {A : Type} (f : A -> nat) (n : nat) (l : list A) :
  (forall y, In y l -> f y < n) ->
  list_sum (map (fun i => List.length (filter (fun y => f y =? i) l)) (seq 0 n))
  = List.length l.
Proof.
  induction l as [|y t IH]; intros H.
  - simpl. induction (seq 0 n); simpl; auto.
  - rewrite (map_ext _ (fun i => (if f y =? i then 1 else 0)
                               + List.length (filter (fun z => f z =? i) t))).
    + rewrite list_sum_map_add, IH, list_sum_indicator
        by (intros; apply H; now right).
      assert (f y < n) by (apply H; now left).
      destruct (0 <=? f y) eqn:E1; destruct (f y <? 0 + n) eqn:E2; simpl; auto;
        rewrite ?Nat.leb_gt, ?Nat.ltb_ge in *; lia.
    + intros i. simpl. destruct (f y =? i); reflexivity.
Qed.

Lemma Qmin_list_spec x l :
  (Qmin_list x l <= x)%Q /\ Forall (fun y => Qmin_list x l <= y)%Q l.
Proof.
  unfold Qmin_list. revert x. induction l as [|y t IH]; intros x; simpl.
  - split; [lra|constructor].
  - destruct (Qle_bool y x) eqn:E.
    + apply Qle_bool_iff in E. destruct (IH y) as [H1 H2].
      split; [lra|]. constructor; auto.
    + assert (x < y)%Q as L.
      { apply Qnot_le_lt. intros C. apply Qle_bool_iff in C. congruence. }
      destruct (IH x) as [H1 H2]. split; auto. constructor; [lra|auto].
Qed.

Lemma Qmax_list_spec x l :
  (x <= Qmax_list x l)%Q /\ Forall (fun y => y <= Qmax_list x l)%Q l.
Proof.
  unfold Qmax_list. revert x. induction l as [|y t IH]; intros x; simpl.
  - split; [lra|constructor].
  - destruct (Qle_bool x y) eqn:E.
    + apply Qle_bool_iff in E. destruct (IH y) as [H1 H2].
      split; [lra|]. constructor; auto.
    + assert (y < x)%Q as L.
      { apply Qnot_le_lt. intros C. apply Qle_bool_iff in C. congruence. }
      destruct (IH x) as [H1 H2]. split; auto. constructor; [lra|auto].
Qed.

Lemma bin_of_lt bins lo hi x :
  1 <= bins -> (lo < hi)%Q -> (x <= hi)%Q -> bin_of bins lo hi x < bins.
Proof.
  intros Hb Hlh Hx. unfold bin_of.
  destruct (Qeq_bool x hi) eqn:E; [lia|].
  assert (x < hi)%Q as L.
  { apply Qle_lteq in Hx as [?|C]; auto. apply Qeq_bool_iff in C. congruence. }
  set (v := ((x - lo) * Qnat bins / (hi - lo))%Q).
  assert (v < Qnat bins)%Q as Hv.
  { unfold v. apply Qlt_shift_div_r; [lra|].
    assert (0 < Qnat bins)%Q.
    { unfold Qnat. change 0%Q with (inject_Z 0). rewrite <- Zlt_Qlt. lia. }
    nra. }
  pose proof (Qfloor_le v) as Hf.
  assert (inject_Z (Qfloor v) < Qnat bins)%Q as Hlt by lra.
  unfold Qnat in Hlt. rewrite <- Zlt_Qlt in Hlt. lia.
Qed.

(** The histogram has [bins] bins and counts every price present once. *)
Lemma hist_total bins x contagens :
  1 <= bins ->
  hist bins x = Some contagens ->
  List.length contagens = bins
  /\ list_sum contagens = List.length (dropna x).
Proof.
  intros Hb. unfold hist. destruct (dropna x) as [|v vs] eqn:E; [discriminate|].
  intros H. injection H as <-. split; [now rewrite length_map, length_seq|].
  apply (count_bins
           (bin_of bins
              (if Qeq_bool (Qmin_list v vs) (Qmax_list v vs)
               then (Qmin_list v vs - (1 # 2))%Q else Qmin_list v vs)
              (if Qeq_bool (Qmin_list v vs) (Qmax_list v vs)
               then (Qmax_list v vs + (1 # 2))%Q else Qmax_list v vs))
           bins (v :: vs)).
  intros y Hy.
  destruct (Qmin_list_spec v vs) as [Hm1 Hm2].
  destruct (Qmax_list_spec v vs) as [HM1 HM2].
  rewrite Forall_forall in Hm2, HM2.
  assert (Qmin_list v vs <= y /\ y <= Qmax_list v vs)%Q as [Hlo Hhi].
  { destruct Hy as [<-|Hy]; auto. }
  destruct (Qeq_bool (Qmin_list v vs) (Qmax_list v vs)) eqn:Q.
  - apply bin_of_lt; auto; lra.
  - apply bin_of_lt; auto.
    assert (Qmin_list v vs <= Qmax_list v vs)%Q as Hle by lra.
    apply Qle_lteq in Hle as [?|C]; auto. apply Qeq_bool_iff in C. congruence.
Qed.

(** C9, as stated, fails on a tie: "Gas" occurs first and "Alc" second,
    once each; the subject is "Alc", the first in string order, not the
    first to occur. *)
Lemma mode_tie_counterexample :
  exists df,
    read_frame db_empate = Some df
    /\ Spec.mais_frequente_primeiro df = Some "Gas"
    /\ mode df = ["Alc"; "Gas"]
    /\ exists flash analyses figuras,
         dashboard db_empate = Pagina flash analyses figuras
         /\ In ("produto_analisado", VStr "Alc") analyses
         /\ ~ In ("produto_analisado", VStr "Gas") analyses.
Proof.
  eexists. split; [vm_compute; reflexivity|].
  split; [vm_compute; reflexivity|]. split; [vm_compute; reflexivity|].
  do 3 eexists. split; [vm_compute; reflexivity|]. split.
  - do 8 right. left. reflexivity.
  - intros H. repeat (destruct H as [H|H]; [discriminate H|]). exact H.
Qed.

(** C9, amended. When the dashboard renders its analyses, the subject of
    the distribution view is a product that occurs most often, and among
    the products occurring as often it is the first in ascending string
    order; the view is the 30-bin histogram that counts every sale price
    present of that product once, under the product's name. *)
Theorem distribution_subject (db : list registro) (flash : list string)
  (analyses : list (string * valor)) (figuras : list figura) :
  dashboard db = Pagina flash analyses figuras ->
  analyses <> [] ->
  exists df p contagens,
    read_frame db = Some df
    /\ In ("produto_analisado", VStr p) analyses
    /\ In (Histograma ("Distribuição de Preços para " ++ p) contagens) figuras
    /\ 1 <= conta p df
    /\ (forall p', conta p' df <= conta p df)
    /\ (forall p', conta p' df = conta p df -> String.leb p p' = true)
    /\ hist 30 (precos_de p df) = Some contagens
    /\ List.length contagens = 30
    /\ list_sum contagens = List.length (dropna (precos_de p df)).
Proof.
  unfold dashboard, banco_vazio.
  destruct (read_frame db) as [[|o df]|] eqn:R; intros H Hne;
    try (injection H as <- <- <-; congruence).
  unfold analisar in H.
  destruct (negb (coluna_numerica db)); [discriminate|].
  destruct (min_data _) as [d0|]; [|discriminate].
  destruct (max_data _) as [d1|]; [|discriminate].
  destruct (mode (o :: df)) as [|p t] eqn:M; [discriminate|].
  destruct (hist 30 (precos_de p (o :: df))) as [c|] eqn:Hh; [|discriminate].
  injection H as <- <- <-.
  destruct (mode_head _ _ _ M) as (H1 & H2 & H3).
  destruct (hist_total 30 _ _ ltac:(lia) Hh)
    as [Hl Hsum].
  exists (o :: df), p, c. split; [reflexivity|].
  split; [do 8 right; left; reflexivity|].
  split; [right; left; reflexivity|].
  repeat split; auto.
Qed.

Lemma distribution_subject_witness :
  exists flash analyses figuras,
    dashboard db_empate = Pagina flash analyses figuras
    /\ exists df p contagens,
         read_frame db_empate = Some df
         /\ In ("produto_analisado", VStr p) analyses
         /\ In (Histograma ("Distribuição de Preços para " ++ p) contagens) figuras
         /\ 1 <= conta p df
         /\ (forall p', conta p' df <= conta p df)
         /\ (forall p', conta p' df = conta p df -> String.leb p p' = true)
         /\ hist 30 (precos_de p df) = Some contagens
         /\ List.length contagens = 30
         /\ list_sum contagens = List.length (dropna (precos_de p df)).
Proof.
  do 3 eexists. split; [vm_compute; reflexivity|].
  eapply distribution_subject; [vm_compute; reflexivity | discriminate].
Defined.

End Distribution.

(** ** Stored keys are normalized *)

Section StoredKeys.

Import Ingest.

Lemma strip_front_cons w1 w2 w3 a r :
  Text.strip_front w1 w2 w3 (a :: r)
  = if w1 a then Text.strip_front w1 w2 w3 r
    else match r with
         | b :: r2 =>
             if w2 a b then Text.strip_front w1 w2 w3 r2
             else match r2 with
                  | c :: r3 =>
                      if w3 a b c then Text.strip_front w1 w2 w3 r3 else a :: r
                  | [] => a :: r
                  end
         | [] => a :: r
         end.
Proof. reflexivity. Qed.

Lemma strip_front_fix w1 w2 w3 s :
  Text.opens w1 w2 w3 s = false -> Text.strip_front w1 w2 w3 s = s.
Proof.
  destruct s as [|a [|b [|c r]]]; intros H; auto; rewrite strip_front_cons;
    unfold Text.opens in H; repeat (apply orb_false_iff in H as [? H]);
    repeat match goal with E : _ = false |- _ => rewrite E; clear E end; auto.
Qed.

Lemma strip_front_spec w1 w2 w3 n :
  forall s, List.length s <= n ->
    Text.opens w1 w2 w3 (Text.strip_front w1 w2 w3 s) = false
    /\ exists p, s = p ++ Text.strip_front w1 w2 w3 s.
Proof.
  induction n as [|n IH]; intros s Hn.
  - destruct s; [|simpl in Hn; lia]. split; [reflexivity|now exists []].
  - destruct s as [|a r]; [split; [reflexivity|now exists []]|].
    simpl in Hn. rewrite strip_front_cons.
    destruct (w1 a) eqn:E1.
    { destruct (IH r ltac:(lia)) as [H (p & Hp)]. split; auto.
      exists (a :: p). simpl. now rewrite <- Hp. }
    destruct r as [|b r2].
    { split; [simpl; now rewrite E1|now exists []]. }
    destruct (w2 a b) eqn:E2.
    { simpl in Hn. destruct (IH r2 ltac:(lia)) as [H (p & Hp)]. split; auto.
      exists (a :: b :: p). simpl. now rewrite <- Hp. }
    destruct r2 as [|c r3].
    { split; [simpl; now rewrite E1, E2|now exists []]. }
    destruct (w3 a b c) eqn:E3.
    { simpl in Hn. destruct (IH r3 ltac:(lia)) as [H (p & Hp)]. split; auto.
      exists (a :: b :: c :: p). simpl. now rewrite <- Hp. }
    split; [simpl; now rewrite E1, E2, E3|now exists []].
Qed.

Lemma strip_front_idem w1 w2 w3 s :
  Text.strip_front w1 w2 w3 (Text.strip_front w1 w2 w3 s)
  = Text.strip_front w1 w2 w3 s.
Proof.
  apply strip_front_fix.
  apply (strip_front_spec w1 w2 w3 (List.length s) s (Nat.le_refl _)).
Qed.

Lemma opens_app w1 w2 w3 p w :
  Text.opens w1 w2 w3 (p ++ w) = false -> Text.opens w1 w2 w3 p = false.
Proof.
  destruct p as [|a [|b [|c r]]]; simpl; auto; intros H;
    repeat (apply orb_false_iff in H as [? H]);
    repeat match goal with E : _ = false |- _ => rewrite E; clear E end; auto.
Qed.

Lemma rstrip_bytes_idem s :
  Text.rstrip_bytes (Text.rstrip_bytes s) = Text.rstrip_bytes s.
Proof.
  unfold Text.rstrip_bytes. now rewrite rev_involutive, strip_front_idem.
Qed.

Lemma rstrip_bytes_prefix s : exists w, s = Text.rstrip_bytes s ++ w.
Proof.
  unfold Text.rstrip_bytes.
  destruct (strip_front_spec Text.isspace (fun a b => Text.isspace2 b a)
              (fun a b c => Text.isspace3 c b a) _ (rev s) (Nat.le_refl _))
    as [_ (p & Hp)].
  exists (rev p). rewrite <- rev_app_distr, <- Hp. now rewrite rev_involutive.
Qed.

Lemma lstrip_rstrip_lstrip s :
  Text.lstrip_bytes (Text.rstrip_bytes (Text.lstrip_bytes s))
  = Text.rstrip_bytes (Text.lstrip_bytes s).
Proof.
  unfold Text.lstrip_bytes at 1. apply strip_front_fix.
  destruct (rstrip_bytes_prefix (Text.lstrip_bytes s)) as (w & Hw).
  apply (opens_app _ _ _ _ w). rewrite <- Hw.
  apply (strip_front_spec _ _ _ (List.length s) s (Nat.le_refl _)).
Qed.

Lemma strip_idem s : Text.strip (Text.strip s) = Text.strip s.
Proof.
  unfold Text.strip. rewrite list_ascii_of_string_of_list_ascii.
  now rewrite lstrip_rstrip_lstrip, rstrip_bytes_idem.
Qed.

(** White space of more than one byte is trimmed as well: here U+00A0
    before the text and U+2003 after it. *)
Lemma strip_unicode :
  Text.strip
    (String (ascii_of_nat 194) (String (ascii_of_nat 160)
       (String "A"%char
          (String (ascii_of_nat 226) (String (ascii_of_nat 128)
             (String (ascii_of_nat 131) EmptyString))))))
  = "A".
Proof. reflexivity. Qed.

Lemma digit_chr_spec n :
  Data.digit_val (Data.digit_chr n) = Some (n mod 10)
  /\ Ascii.eqb (Data.digit_chr n) "-"%char = false.
Proof.
  unfold Data.digit_chr.
  pose proof (Nat.mod_upper_bound n 10 ltac:(lia)) as H.
  destruct (n mod 10) as [|k]; [split; reflexivity|].
  do 9 (destruct k as [|k]; [split; reflexivity|]). lia.
Qed.

Lemma split_iso c1 c2 c3 c4 c5 c6 c7 c8 :
  Forall (fun c => Ascii.eqb c "-"%char = false) [c1; c2; c3; c4; c5; c6; c7; c8] ->
  Text.split_on "-"%char
    (String c1 (String c2 (String c3 (String c4 (String "-"%char
      (String c5 (String c6 (String "-"%char
        (String c7 (String c8 EmptyString))))))))))
  = [ String c1 (String c2 (String c3 (String c4 EmptyString)));
      String c5 (String c6 EmptyString);
      String c7 (String c8 EmptyString) ].
Proof.
  intros H. repeat (let E := fresh in inversion H as [|? ? E H']; subst;
                    clear H; rename H' into H; try rewrite E).
  simpl. now rewrite H0, H1, H2, H3, H4, H5, H6, H7.
Qed.

Lemma parse_Y_four n :
  n <= 2262 -> Data.parse_Y (Data.four_digits n) = Some n.
Proof.
  intros H. unfold Data.parse_Y, Data.four_digits.
  rewrite !(proj1 (digit_chr_spec _)). f_equal.
  pose proof (Nat.div_mod_eq n 10). pose proof (Nat.div_mod_eq (n / 10) 10).
  pose proof (Nat.div_mod_eq (n / 100) 10).
  pose proof (Nat.div_mod_eq (n / 1000) 10).
  assert (n / 100 = n / 10 / 10) as E1 by (now rewrite Nat.Div0.div_div).
  assert (n / 1000 = n / 100 / 10) as E2 by (now rewrite Nat.Div0.div_div).
  assert (n / 1000 < 10) by (apply Nat.Div0.div_lt_upper_bound; lia).
  assert (n / 1000 / 10 = 0) by (apply Nat.div_small; lia).
  lia.
Qed.

Lemma parse_2_two n : n < 100 -> Data.parse_2 (Data.two_digits n) = Some n.
Proof.
  intros H. unfold Data.parse_2, Data.two_digits.
  rewrite !(proj1 (digit_chr_spec _)). f_equal.
  pose proof (Nat.div_mod_eq n 10). pose proof (Nat.div_mod_eq (n / 10) 10).
  assert (n / 10 < 10) by (apply Nat.Div0.div_lt_upper_bound; lia).
  assert (n / 10 / 10 = 0) by (apply Nat.div_small; lia).
  lia.
Qed.

Lemma valid_bounds d :
  Data.valid d = true ->
  Data.year d <= 2262 /\ Data.month d < 100 /\ Data.day d < 100.
Proof.
  unfold Data.valid. rewrite !andb_true_iff, !Nat.leb_le.
  intros [[[[[H1 H2] H3] H4] H5] H6].
  assert (Data.days_in_month (Data.year d) (Data.month d) <= 31) as Hd.
  { unfold Data.days_in_month. generalize (Data.month d). intros m.
    do 13 (destruct m as [|m]; [try lia; destruct Data.is_leap; lia|]).
    lia. }
  split; [|lia].
  unfold Data.leb, Data.compare, Data.ts_max in H6. simpl in H6.
  destruct (Nat.compare_spec (Data.year d) 2262); lia || discriminate.
Qed.

(** A date written by [strftime('%Y-%m-%d')] reads back as itself. *)
Lemma iso_roundtrip d :
  Data.valid d = true -> Data.to_datetime_iso (Data.strftime_ymd d) = Some d.
Proof.
  intros Hv. destruct (valid_bounds d Hv) as (Hy & Hm & Hd).
  unfold Data.to_datetime_iso, Data.strftime_ymd.
  change (Data.four_digits (Data.year d) ++ "-" ++
          Data.two_digits (Data.month d) ++ "-" ++ Data.two_digits (Data.day d))%string
    with (String (Data.digit_chr (Data.year d / 1000))
           (String (Data.digit_chr (Data.year d / 100))
             (String (Data.digit_chr (Data.year d / 10))
               (String (Data.digit_chr (Data.year d))
                 (String "-"%char
                   (String (Data.digit_chr (Data.month d / 10))
                     (String (Data.digit_chr (Data.month d))
                       (String "-"%char
                         (String (Data.digit_chr (Data.day d / 10))
                           (String (Data.digit_chr (Data.day d))
                              EmptyString)))))))))).
  rewrite split_iso by (repeat constructor; apply digit_chr_spec).
  change (String (Data.digit_chr (Data.year d / 1000)) _)
    with (Data.four_digits (Data.year d)).
  change (String (Data.digit_chr (Data.month d / 10)) _)
    with (Data.two_digits (Data.month d)).
  change (String (Data.digit_chr (Data.day d / 10)) _)
    with (Data.two_digits (Data.day d)).
  rewrite parse_Y_four, !parse_2_two by assumption.
  unfold Data.existing_day. destruct d as [y m dd]. simpl in *. now rewrite Hv.
Qed.

Lemma to_datetime_dmy_valid s d :
  Data.to_datetime_dmy s = Some d -> Data.valid d = true.
Proof.
  unfold Data.to_datetime_dmy, Data.existing_day.
  destruct (Text.split_on "/" s) as [|a [|b [|c [|? ?]]]]; try discriminate.
  destruct (Data.parse_d a), (Data.parse_m b), (Data.parse_Y c);
    try discriminate.
  destruct (Data.valid _) eqn:E; [|discriminate]. now intros [= <-].
Qed.

Lemma data_existente_nova c : data_existente (data_nova c) = data_nova c.
Proof.
  destruct c as [|s| | |]; try reflexivity.
  unfold data_nova.
  destruct (Data.to_datetime_dmy s) as [d|] eqn:E; [|reflexivity].
  unfold option_map, data_existente.
  now rewrite (iso_roundtrip d (to_datetime_dmy_valid s d E)).
Qed.

Lemma isdigit_digit_chr n : Text.isdigit (Data.digit_chr n) = true.
Proof.
  unfold Data.digit_chr.
  pose proof (Nat.mod_upper_bound n 10 ltac:(lia)) as H.
  destruct (n mod 10) as [|k]; [reflexivity|].
  do 9 (destruct k as [|k]; [reflexivity|]). lia.
Qed.

Lemma isdigit_plain c :
  Text.isdigit c = true ->
  Sqlite.isspace c = false /\ forall r, Text.sign (c :: r) = (false, c :: r).
Proof.
  destruct c as [[] [] [] [] [] [] [] []]; try discriminate;
    intros _; split; reflexivity.
Qed.

Lemma digits_cons acc n c r :
  Text.isdigit c = true ->
  Text.digits acc n (c :: r)
  = Text.digits (10 * acc + Z.of_nat (nat_of_ascii c - 48))%Z (S n) r.
Proof. intros H. cbn [Text.digits]. now rewrite H. Qed.

(** A date written by [strftime('%Y-%m-%d')] is no number for SQLite: the
    [DATE] column keeps it as the text it is. *)
Lemma strftime_ymd_texto d : Sqlite.numero (Data.strftime_ymd d) = None.
Proof.
  unfold Sqlite.numero, Data.strftime_ymd, Data.four_digits, Data.two_digits.
  cbn [String.append list_ascii_of_string Sqlite.skip_space].
  destruct (isdigit_plain _ (isdigit_digit_chr (Data.year d / 1000))) as [-> Hs].
  unfold Text.numero_bytes. rewrite Hs.
  rewrite !digits_cons by apply isdigit_digit_chr.
  reflexivity.
Qed.

Lemma data_nova_texto c s : data_nova c = Some s -> Sqlite.numero s = None.
Proof.
  destruct c as [|t| | |]; try discriminate. unfold data_nova.
  destruct (Data.to_datetime_dmy t) as [d|]; [|discriminate].
  intros [= <-]. apply strftime_ymd_texto.
Qed.

(** The key of a row of [df_new] is left as it is by the normalization of
    [existing_records]. *)
Lemma chave_normalizar_fix raw :
  normalizar_existente (chave_de (normalizar raw)) = chave_de (normalizar raw).
Proof.
  unfold chave_de, normalizar, normalizar_existente, strip_col.
  cbn [cnpj_revenda produto data_coleta Text.astype_str].
  now rewrite !strip_idem, data_existente_nova.
Qed.

(** X2. Uploading the same file again: after a success the second upload
    adds nothing, reports no new row and counts the whole cleaned batch as
    duplicates; after a failure the table is as before and the upload
    fails again. *)
Lemma reupload db arq :
  match upload_file db arq with
  | (Sucesso _ _, db1) =>
      exists cab arquivo,
        arq = Csv.Lido cab arquivo
        /\ upload_file db1 arq
           = (Sucesso 0
                (Z.of_nat (List.length (df_new (map rename cab) arquivo))),
              db1)
  | (Falha, db1) => db1 = db /\ upload_file db1 arq = (Falha, db1)
  end.
Proof.
  destruct (upload_file db arq) as [[n d|] db1] eqn:U.
  - destruct (upload_file_lido _ _ _ _ _ U) as (cab & arquivo & ->).
    exists cab, arquivo. split; [reflexivity|].
    apply upload_file_sucesso in U as (Hc & E & _).
    set (cols := map rename cab) in *.
    assert (so_left_only (merge_left (df_new cols arquivo) (existing_records db1)) = [])
      as Hnil.
    { rewrite so_left_only_merge. apply filter_nil_existsb.
      apply not_true_is_false. intros C.
      apply existsb_exists in C as (r & Hr & Hc'). apply negb_true_iff in Hc'.
      assert (existsb (casa r) (existing_records db1) = true); [|congruence].
      apply existsb_exists. exists (chave_de r). split; [|now apply casa_true].
      rewrite existing_records_map, E, !map_app. apply in_or_app.
      destruct (in_dec chave_eq_dec (chave_de r) (existing_records db)) as [Hi|Hi].
      - left. now rewrite <- existing_records_map.
      - right. apply in_map_iff. exists (chave_de r). split.
        + unfold df_new in Hr. apply in_map_iff in Hr as (raw & <- & _).
          apply chave_normalizar_fix.
        + rewrite map_map. apply in_map_iff. exists r. split; [reflexivity|].
          apply in_so_left_only. split; auto. }
    unfold upload_file. cbv zeta. fold cols. rewrite Hc. cbn [negb].
    rewrite Hnil. simpl. now rewrite Z.sub_0_r.
  - apply upload_file_falha in U as E. subst db1. split; auto.
Qed.

Lemma to_sql_unique tabela rows tabela' :
  to_sql tabela rows = Some tabela' ->
  NoDup (filter sem_nulos (map chave_de tabela)) ->
  NoDup (filter sem_nulos (map chave_de tabela')).
Proof.
  revert tabela. induction rows as [|r t IH]; simpl; intros tabela H Hn.
  - now injection H as <-.
  - destruct (existsb (conflita r) tabela) eqn:E; [discriminate|].
    apply (IH _ H). rewrite map_app, filter_app.
    change (filter sem_nulos (map chave_de [Sqlite.armazenar r]))
      with (if sem_nulos (chave_de r) then [chave_de r] else []).
    destruct (sem_nulos (chave_de r)) eqn:S; [|now rewrite app_nil_r].
    apply NoDup_app; auto.
    + constructor; [intros []|constructor].
    + intros k Hk [<-|[]]. apply filter_In in Hk as [Hk _].
      apply in_map_iff in Hk as (x & Hx & Hin).
      assert (existsb (conflita r) tabela = true); [|congruence].
      apply existsb_exists. exists x. split; auto.
      unfold conflita. rewrite S, Hx.
      destruct (chave_eq_dec (chave_de r) (chave_de r));
        [reflexivity | congruence].
Qed.

Lemma alcancavel_unique db :
  alcancavel db -> NoDup (filter sem_nulos (map chave_de db)).
Proof.
  induction 1 as [|db arq _ IH]; [constructor|].
  destruct arq as [|cab arquivo]; [exact IH|].
  unfold upload_file. cbv zeta.
  destruct (colunas_ok _); cbn [negb]; [|exact IH].
  destruct (so_left_only _) as [|x xs]; auto.
  destruct (forallb _ colunas_db); cbn [negb]; [|exact IH].
  destruct (to_sql db (x :: xs)) eqn:T; simpl; auto.
  eapply to_sql_unique; eauto.
Qed.

Lemma alcancavel_normalizada db :
  alcancavel db ->
  Forall (fun r => Spec.chave_normalizada r = chave_de r) db.
Proof.
  induction 1 as [|db arq _ IH]; [constructor|].
  destruct (upload_file_normalizadas db arq) as (ins & -> & Hn).
  apply Forall_app. split; auto. apply Forall_forall. intros r Hr.
  apply in_map_iff in Hr as (r0 & <- & Hr0).
  destruct (Hn r0 Hr0) as (raw & ->).
  apply chave_normalizar_fix.
Qed.

(** X3. Among the records that have a date, no two records of a table built
    by uploads share their normalized key. *)
Lemma dated_records_unique db :
  alcancavel db ->
  NoDup (filter sem_nulos (map Spec.chave_normalizada db)).
Proof.
  intros H. rewrite (map_ext_in _ chave_de).
  - now apply alcancavel_unique.
  - apply Forall_forall. now apply alcancavel_normalizada.
Qed.

Lemma dated_records_unique_witness :
  NoDup (filter sem_nulos
           (map Spec.chave_normalizada
              (snd (upload_file [] (csv arquivo_repetido))))).
Proof. apply dated_records_unique. apply alc_upload, alc_init. Defined.

(** Rows of one file that carry the same key cells as read are reduced to
    the first of them. *)
Lemma drop_duplicates_from_NoDup seen df :
  NoDup (map Csv.chave_de (drop_duplicates_from seen df))
  /\ forall k, In k (map Csv.chave_de (drop_duplicates_from seen df)) ->
               ~ In k seen.
Proof.
  revert seen. induction df as [|r t IH]; intros seen; simpl.
  - split; [constructor|intros ? []].
  - destruct (in_dec Csv.chave_eq_dec (Csv.chave_de r) seen) as [Hi|Hi];
      [apply IH|].
    destruct (IH (Csv.chave_de r :: seen)) as [H1 H2]. simpl. split.
    + constructor; auto. intros C. apply (H2 _ C). now left.
    + intros k [<-|Hk]; auto. intros C. apply (H2 _ Hk). now right.
Qed.

Lemma limpar_NoDup cols arquivo :
  NoDup (map Csv.chave_de (limpar cols arquivo)).
Proof. apply drop_duplicates_from_NoDup. Qed.

End StoredKeys.

(** ** The file-name gate *)

Section FileNames.

Import Rota.

Lemma rcut_none sep s : contains sep s = false -> rcut sep s = None.
Proof.
  induction s as [|c s IH]; simpl; auto.
  intros H. apply orb_false_iff in H as [H1 H2]. now rewrite IH, H1.
Qed.

Lemma rcut_app sep b e :
  contains sep e = false ->
  rcut sep (b ++ String sep e)%string = Some (b, e).
Proof.
  intros H. induction b as [|c b IH]; simpl.
  - now rewrite (rcut_none sep e H), Ascii.eqb_refl.
  - now rewrite IH.
Qed.

Lemma rcut_some sep s b e :
  rcut sep s = Some (b, e) ->
  s = (b ++ String sep e)%string /\ contains sep e = false.
Proof.
  revert b e. induction s as [|c s IH]; simpl; intros b e; [discriminate|].
  destruct (rcut sep s) as [[b' a]|] eqn:E.
  - intros [= <- <-]. destruct (IH b' a eq_refl) as [-> H]. auto.
  - destruct (Ascii.eqb c sep) eqn:Ec; [|discriminate].
    intros [= <- <-]. apply Ascii.eqb_eq in Ec. subst. split; auto.
    clear IH. induction s as [|x s IHs]; simpl in *; auto.
    destruct (rcut sep s) as [[? ?]|]; [discriminate|].
    destruct (Ascii.eqb x sep); [discriminate|]. simpl. auto.
Qed.

Lemma lower_chr_is (x : ascii) (l u : ascii) :
  (l = "c" /\ u = "C" \/ l = "s" /\ u = "S" \/ l = "v" /\ u = "V")%char ->
  lower_chr x = l <-> x = l \/ x = u.
Proof.
  intros [[-> ->]|[[-> ->]|[-> ->]]];
    destruct x as [[] [] [] [] [] [] [] []]; vm_compute;
    split; intros H; try (destruct H as [H|H]); try discriminate H; auto.
Qed.

(** X15. A file name passes the gate exactly when it ends in a dot
    followed by [csv] in any mix of upper and lower case; the dot is the
    last one of the name, and a name without a dot is refused. *)
Theorem allowed_file_iff (filename : string) :
  allowed_file filename = true <->
  exists base c s v,
    filename = (base ++ "." ++ String c (String s (String v EmptyString)))%string
    /\ (c = "c" \/ c = "C")%char /\ (s = "s" \/ s = "S")%char
    /\ (v = "v" \/ v = "V")%char.
Proof.
  unfold allowed_file, rsplit1. split.
  - intros H. apply andb_true_iff in H as [_ H].
    destruct (rcut "." filename) as [[b e]|] eqn:E; [|discriminate].
    apply rcut_some in E as [-> _]. simpl in H. rewrite orb_false_r in H.
    apply String.eqb_eq in H.
    destruct e as [|c [|s [|v [|? ?]]]]; try discriminate.
    simpl in H. injection H as Hc Hs Hv.
    exists b, c, s, v. split; [reflexivity|].
    split; [|split].
    + apply (lower_chr_is c "c" "C"); auto.
    + apply (lower_chr_is s "s" "S"); auto 6.
    + apply (lower_chr_is v "v" "V"); auto 6.
  - intros (b & c & s & v & -> & Hc & Hs & Hv).
    assert (contains "." (String c (String s (String v EmptyString))) = false) as Hn.
    { destruct Hc as [->| ->], Hs as [->| ->], Hv as [->| ->]; reflexivity. }
    change (b ++ "." ++ String c (String s (String v "")))%string
      with (b ++ String "."%char (String c (String s (String v "")))%string)%string.
    rewrite (rcut_app "." b _ Hn).
    apply andb_true_iff. split.
    + clear. induction b as [|x b IH]; simpl; auto. rewrite IH. apply orb_true_r.
    + destruct Hc as [->| ->], Hs as [->| ->], Hv as [->| ->]; reflexivity.
Qed.

End FileNames.

(** ** What an upload does to the table *)

Section Uploads.

Import Ingest.

(** X1. An upload never changes or removes a stored row: the table after it
    is the table before it followed by rows of [df_new], each as the table
    keeps it; on a failure nothing is added, and a file that cannot be read
    is a failure; on a success [novos] is the number of rows added,
    [duplicados] is not negative and the two add up to the size of the
    cleaned batch. *)
Theorem upload_appends (db : list registro) (arq : Csv.leitura) :
  exists ins,
    snd (upload_file db arq) = db ++ ins
    /\ match arq with
       | Csv.Ilegivel => fst (upload_file db arq) = Falha /\ ins = []
       | Csv.Lido cab arquivo =>
           incl ins (map Sqlite.armazenar (df_new (map rename cab) arquivo))
           /\ match fst (upload_file db arq) with
              | Sucesso n d =>
                  n = Z.of_nat (List.length ins) /\ (0 <= d)%Z
                  /\ (n + d)%Z
                     = Z.of_nat (List.length (limpar (map rename cab) arquivo))
              | Falha => ins = []
              end
       end.
Proof.
  destruct arq as [|cab arquivo].
  - exists []. simpl. rewrite app_nil_r. auto.
  - destruct (upload_file db (Csv.Lido cab arquivo)) as [[n d|] db1] eqn:U;
      cbn [fst snd].
    + pose proof (counts_add_up _ _ _ _ _ _ U) as (Hs & _ & Hd).
      apply upload_file_sucesso in U as (_ & -> & Hn & _).
      eexists. split; [reflexivity|]. split.
      * intros r Hr. apply in_map_iff in Hr as (r0 & <- & Hr0).
        apply in_map. now apply in_so_left_only in Hr0.
      * rewrite length_map. auto.
    + apply upload_file_falha in U as ->. exists []. rewrite app_nil_r.
      split; [reflexivity|]. split; [intros ? []|reflexivity].
Qed.

(** X6. After a successful upload the table holds the rows it held and, as
    the table keeps them, the rows of the cleaned batch whose three
    normalized key values together are the key of no stored record, and no
    other row. *)
Theorem table_after_upload (db : list registro) (cab : list string)
  (arquivo : list Csv.linha) (n d : Z) (db' : list registro) :
  upload_file db (Csv.Lido cab arquivo) = (Sucesso n d, db') ->
  forall r,
    In r db' <->
    In r db
    \/ exists r0, r = Sqlite.armazenar r0
                  /\ In r0 (df_new (map rename cab) arquivo)
                  /\ ~ In (chave_de r0) (existing_records db).
Proof.
  intros U r. apply upload_file_sucesso in U as (_ & -> & _).
  rewrite in_app_iff, in_map_iff. split; intros [H|H]; auto; right.
  - destruct H as (r0 & <- & H). apply in_so_left_only in H.
    exists r0. tauto.
  - destruct H as (r0 & -> & H). exists r0. split; auto.
    now apply in_so_left_only.
Qed.

Lemma table_after_upload_witness :
  In (gas "B" "2024-01-01" (Num (51 # 10)))
    [ gas "A" "2024-01-01" (Num q5); gas "B" "2024-01-01" (Num (51 # 10)) ]
  <-> In (gas "B" "2024-01-01" (Num (51 # 10))) []
      \/ exists r0,
           gas "B" "2024-01-01" (Num (51 # 10)) = Sqlite.armazenar r0
           /\ In r0 (df_new (map rename cabecalho) arquivo_repetido)
           /\ ~ In (chave_de r0) (existing_records []).
Proof.
  apply (table_after_upload [] cabecalho arquivo_repetido 2 0). reflexivity.
Defined.








Lemma alcancavel_datas (db : list registro) :
  alcancavel db ->
  forall r, In r db ->
    data_coleta r = None
    \/ exists d, Data.valid d = true
                 /\ data_coleta r = Some (Data.strftime_ymd d).
Proof.
  induction 1 as [|db arq _ IH]; [intros ? []|].
  destruct (upload_file_normalizadas db arq) as (ins & -> & Hn).
  intros r Hr. apply in_app_iff in Hr as [Hr|Hr]; [now apply IH|].
  apply in_map_iff in Hr as (r0 & <- & Hr0).
  destruct (Hn r0 Hr0) as (raw & ->).
  unfold Sqlite.armazenar, normalizar. cbn [data_coleta].
  destruct (Csv.data_coleta raw) as [|s| | |]; try now left.
  unfold data_nova.
  destruct (Data.to_datetime_dmy s) as [d|] eqn:E; [|now left].
  right. exists d. split; [|reflexivity]. now apply to_datetime_dmy_valid in E.
Qed.

(** X4. Every record of a table built by uploads has a seller id and a
    product that are present and trimmed, and a date that is either
    missing or the [%Y-%m-%d] form of a calendar day. *)
Theorem stored_keys_canonical (db : list registro) :
  alcancavel db ->
  forall r, In r db ->
    exists a p,
      cnpj_revenda r = Some a /\ Text.strip a = a
      /\ produto r = Some p /\ Text.strip p = p
      /\ (data_coleta r = None
          \/ exists d, Data.valid d = true
                       /\ data_coleta r = Some (Data.strftime_ymd d)).
Proof.
  induction 1 as [|db arq _ IH]; [intros ? []|].
  destruct (upload_file_normalizadas db arq) as (ins & -> & Hn).
  intros r Hr. apply in_app_iff in Hr as [Hr|Hr]; [now apply IH|].
  apply in_map_iff in Hr as (r0 & <- & Hr0).
  destruct (Hn r0 Hr0) as (raw & ->).
  unfold Sqlite.armazenar, normalizar, strip_col.
  cbn [cnpj_revenda produto data_coleta].
  do 2 eexists. split; [reflexivity|]. split; [apply strip_idem|].
  split; [reflexivity|]. split; [apply strip_idem|].
  destruct (Csv.data_coleta raw) as [|s| | |]; try now left.
  unfold data_nova.
  destruct (Data.to_datetime_dmy s) as [d|] eqn:E; [|now left].
  right. exists d. split; [|reflexivity]. now apply to_datetime_dmy_valid in E.
Qed.

Lemma stored_keys_canonical_witness :
  exists a p,
    cnpj_revenda (gas "A" "2024-01-01" (Num q5)) = Some a /\ Text.strip a = a
    /\ produto (gas "A" "2024-01-01" (Num q5)) = Some p /\ Text.strip p = p
    /\ (data_coleta (gas "A" "2024-01-01" (Num q5)) = None
        \/ exists d, Data.valid d = true
                     /\ data_coleta (gas "A" "2024-01-01" (Num q5))
                        = Some (Data.strftime_ymd d)).
Proof.
  apply (stored_keys_canonical (snd (upload_file [] (csv arquivo_repetido)))).
  - apply alc_upload, alc_init.
  - left. reflexivity.
Defined.

(** X7. In a frame that has the three key columns, the cleaning of lines
    133-136 keeps, in the order of the file, the first row of each key
    among the rows whose three key cells are present: every kept row is
    such a row of the file, no two kept rows have the same key cells,
    every such row of the file has its key cells on a kept row, a row that
    no earlier such row shares its key cells with is kept, and dropping
    the entirely empty rows first changes nothing. *)
Theorem limpar_keeps_first (cols : list string) (arquivo : list Csv.linha) :
  forallb (tem cols) chaves = true ->
  (forall r, In r (limpar cols arquivo) -> In r arquivo /\ key_present r = true)
  /\ NoDup (map Csv.chave_de (limpar cols arquivo))
  /\ (forall r, In r arquivo -> key_present r = true ->
        In (Csv.chave_de r) (map Csv.chave_de (limpar cols arquivo)))
  /\ (forall pre r post,
        dropna_subset arquivo = pre ++ r :: post ->
        ~ In (Csv.chave_de r) (map Csv.chave_de pre) ->
        In r (limpar cols arquivo))
  /\ limpar cols arquivo = drop_duplicates (dropna_subset arquivo).
Proof.
  intros Hc.
  assert (forall pre seen r post,
            ~ In (Csv.chave_de r) seen ->
            ~ In (Csv.chave_de r) (map Csv.chave_de pre) ->
            In r (drop_duplicates_from seen (pre ++ r :: post))) as Hfirst.
  { induction pre as [|x pre IH]; simpl; intros seen r post Hs Hp.
    - destruct (in_dec Csv.chave_eq_dec (Csv.chave_de r) seen); [contradiction|].
      now left.
    - destruct (in_dec Csv.chave_eq_dec (Csv.chave_de x) seen).
      + apply IH; auto.
      + right. apply IH; auto. intros [E|C]; auto. }
  assert (forall seen df r, In r (drop_duplicates_from seen df) -> In r df) as Hsub.
  { intros seen df. revert seen. induction df as [|x t IH]; simpl; intros seen r;
      [tauto|].
    destruct (in_dec Csv.chave_eq_dec (Csv.chave_de x) seen); simpl; intros H.
    - right. eapply IH; eauto.
    - destruct H as [H|H]; [now left|right; eapply IH; eauto]. }
  assert (forall seen df r, In r df ->
            In (Csv.chave_de r) seen
            \/ In (Csv.chave_de r)
                 (map Csv.chave_de (drop_duplicates_from seen df)))
    as Hcov.
  { intros seen df. revert seen. induction df as [|x t IH]; simpl; intros seen r;
      [tauto|].
    intros [->|Hr].
    - destruct (in_dec Csv.chave_eq_dec (Csv.chave_de r) seen); [now left|].
      right. simpl. now left.
    - destruct (in_dec Csv.chave_eq_dec (Csv.chave_de x) seen) as [Hx|Hx].
      + apply IH; auto.
      + destruct (IH (Csv.chave_de x :: seen) r Hr) as [[E|H]|H].
        * right. simpl. left. exact E.
        * now left.
        * right. simpl. now right. }
  rewrite limpar_subset by exact Hc. split; [|split; [|split; [|split]]].
  - intros r Hr. apply Hsub in Hr. unfold dropna_subset in Hr.
    now apply filter_In in Hr.
  - apply drop_duplicates_from_NoDup.
  - intros r Hr Hk.
    destruct (Hcov [] (dropna_subset arquivo) r) as [[]|H]; auto.
    unfold dropna_subset. apply filter_In. auto.
  - intros pre r post E Hp. unfold drop_duplicates. rewrite E.
    apply Hfirst; auto.
  - reflexivity.
Qed.

Lemma limpar_keeps_first_witness :
  (forall r, In r (limpar colunas_csv arquivo_repetido) ->
             In r arquivo_repetido /\ key_present r = true)
  /\ NoDup (map Csv.chave_de (limpar colunas_csv arquivo_repetido))
  /\ (forall r, In r arquivo_repetido -> key_present r = true ->
        In (Csv.chave_de r) (map Csv.chave_de (limpar colunas_csv arquivo_repetido)))
  /\ (forall pre r post,
        dropna_subset arquivo_repetido = pre ++ r :: post ->
        ~ In (Csv.chave_de r) (map Csv.chave_de pre) ->
        In r (limpar colunas_csv arquivo_repetido))
  /\ limpar colunas_csv arquivo_repetido
     = drop_duplicates (dropna_subset arquivo_repetido).
Proof. apply (limpar_keeps_first colunas_csv arquivo_repetido). reflexivity. Defined.

(** X9. A date that parses as day/month/year at upload is written in the
    [%Y-%m-%d] form, which the next upload normalizes to itself and which
    the dashboard reads back as the same calendar day. *)
Theorem date_written_reads_back (s : string) (d : Data.date) :
  Data.to_datetime_dmy s = Some d ->
  data_nova (Csv.Texto s) = Some (Data.strftime_ymd d)
  /\ data_existente (data_nova (Csv.Texto s)) = data_nova (Csv.Texto s)
  /\ Dash.to_datetime (data_nova (Csv.Texto s)) = Some (Some d).
Proof.
  intros E. split; [unfold data_nova; now rewrite E|].
  split; [apply data_existente_nova|].
  unfold data_nova, Dash.to_datetime. rewrite E. unfold option_map.
  now rewrite (iso_roundtrip d (to_datetime_dmy_valid s d E)).
Qed.

Lemma date_written_reads_back_witness :
  data_nova (Csv.Texto "1/2/2024")
  = Some (Data.strftime_ymd (Data.mkDate 2024 2 1))
  /\ data_existente (data_nova (Csv.Texto "1/2/2024"))
     = data_nova (Csv.Texto "1/2/2024")
  /\ Dash.to_datetime (data_nova (Csv.Texto "1/2/2024"))
     = Some (Some (Data.mkDate 2024 2 1)).
Proof. apply (date_written_reads_back "1/2/2024"). reflexivity. Defined.

End Uploads.

(** ** The dashboard on tables built by uploads *)

Section DashboardFacts.

Import Ingest Dash.

Lemma read_frame_length db df :
  read_frame db = Some df -> List.length df = List.length db.
Proof.
  revert df. induction db as [|r t IH]; simpl; intros df.
  - now intros [= <-].
  - destruct (to_datetime (data_coleta r)); [|discriminate].
    destruct (read_frame t) as [l|]; [|discriminate].
    intros [= <-]. simpl. now rewrite (IH l eq_refl).
Qed.

(** The dates stored by uploads are read back without an error. *)
Lemma read_frame_alcancavel db :
  alcancavel db -> exists df, read_frame db = Some df.
Proof.
  intros H. pose proof (alcancavel_datas db H) as Hc. clear H.
  induction db as [|r t IH]; simpl; [eexists; reflexivity|].
  destruct IH as (l & ->); [intros x Hx; apply Hc; now right|].
  destruct (Hc r (or_introl eq_refl)) as [E|(d & Hv & E)];
    rewrite E; unfold to_datetime.
  - eexists. reflexivity.
  - rewrite (iso_roundtrip d Hv). eexists. reflexivity.
Qed.

Lemma analisar_not_vazio db df : analisar db df <> banco_vazio.
Proof.
  unfold analisar, banco_vazio.
  destruct (negb (coluna_numerica db)); [discriminate|].
  destruct (min_data _); [|discriminate].
  destruct (max_data _); [|discriminate].
  destruct (mode df); [discriminate|].
  destruct (hist 30 _); discriminate.
Qed.

(** X10. For a table built by uploads, the dashboard shows the
    empty-database page exactly when the table has no row: the stored
    dates never send it into the branch that treats the table as empty. *)
Theorem dashboard_empty_iff (db : list registro) :
  alcancavel db -> (dashboard db = banco_vazio <-> db = []).
Proof.
  intros H. split; [|now intros ->].
  destruct (read_frame_alcancavel db H) as (df & R).
  pose proof (read_frame_length db df R) as L.
  unfold dashboard. rewrite R. destruct df as [|o df].
  - intros _. destruct db; [reflexivity|discriminate].
  - intros C. now apply analisar_not_vazio in C.
Qed.

Lemma dashboard_empty_iff_witness :
  dashboard (snd (upload_file [] (csv arquivo_repetido))) = banco_vazio
  <-> snd (upload_file [] (csv arquivo_repetido)) = [].
Proof. apply dashboard_empty_iff. apply alc_upload, alc_init. Defined.

(** The table after a sequence of uploads. *)
Lemma uploads_alcancavel arquivos db :
  alcancavel db ->
  alcancavel (fold_left (fun t a => snd (upload_file t a)) arquivos db).
Proof.
  revert db. induction arquivos as [|a t IH]; simpl; intros db H; auto.
  apply IH. now apply alc_upload.
Qed.

Lemma uploads_keep_rows arquivos db r :
  In r db -> In r (fold_left (fun t a => snd (upload_file t a)) arquivos db).
Proof.
  revert db. induction arquivos as [|a t IH]; simpl; intros db H; auto.
  apply IH. destruct (upload_file_normalizadas db a) as (ins & -> & _).
  apply in_app_iff. now left.
Qed.

(** X11. Once a table built by uploads holds a record whose sale price is
    a text, the dashboard raises an exception, and it goes on raising it
    whatever files are uploaded afterwards. *)
Theorem text_price_breaks_dashboard (db : list registro) (r : registro)
  (arquivos : list Csv.leitura) :
  alcancavel db -> In r db -> is_text (valor_venda r) = true ->
  dashboard (fold_left (fun t a => snd (upload_file t a)) arquivos db) = Excecao.
Proof.
  intros H Hr Ht.
  set (db' := fold_left (fun t a => snd (upload_file t a)) arquivos db).
  assert (alcancavel db') as H' by now apply uploads_alcancavel.
  assert (In r db') as Hr' by now apply uploads_keep_rows.
  destruct (read_frame_alcancavel db' H') as (df & R).
  pose proof (read_frame_length db' df R) as L.
  unfold dashboard. rewrite R. destruct df as [|o df].
  - destruct db'; [destruct Hr'|discriminate].
  - unfold analisar.
    assert (coluna_numerica db' = false) as ->; [|reflexivity].
    apply not_true_is_false. intros C. unfold coluna_numerica in C.
    rewrite forallb_forall in C. specialize (C r Hr'). now rewrite Ht in C.
Qed.

Lemma text_price_breaks_dashboard_witness :
  dashboard
    (fold_left (fun t a => snd (upload_file t a)) [csv arquivo_repetido]
       (snd (upload_file [] (csv arquivo_preco_ruim))))
  = Excecao.
Proof.
  apply (text_price_breaks_dashboard
           (snd (upload_file [] (csv arquivo_preco_ruim)))
           (linha (Some "A") (Some "2024-01-01") (Some "Gas") (Txt "abc") (Txt "n/d"))).
  - apply alc_upload, alc_init.
  - left. reflexivity.
  - reflexivity.
Defined.

Lemma data_compare_lt_iff a b :
  Data.compare a b = Lt <->
  Data.year a < Data.year b
  \/ (Data.year a = Data.year b
      /\ (Data.month a < Data.month b
          \/ (Data.month a = Data.month b /\ Data.day a < Data.day b))).
Proof.
  unfold Data.compare.
  destruct (Nat.compare_spec (Data.year a) (Data.year b));
    destruct (Nat.compare_spec (Data.month a) (Data.month b));
    destruct (Nat.compare_spec (Data.day a) (Data.day b));
    split; intros; try discriminate; try lia; auto.
Qed.

Lemma data_compare_eq a b : Data.compare a b = Eq -> a = b.
Proof.
  unfold Data.compare. destruct a as [y m d], b as [y' m' d']. simpl.
  destruct (Nat.compare_spec y y'); try discriminate.
  destruct (Nat.compare_spec m m'); try discriminate.
  destruct (Nat.compare_spec d d'); try discriminate. intros _. congruence.
Qed.

Lemma data_compare_gt a b : Data.compare a b = Gt -> Data.compare b a = Lt.
Proof.
  intros H. apply data_compare_lt_iff. unfold Data.compare in H.
  destruct (Nat.compare_spec (Data.year a) (Data.year b));
    destruct (Nat.compare_spec (Data.month a) (Data.month b));
    destruct (Nat.compare_spec (Data.day a) (Data.day b));
    try discriminate; lia.
Qed.

Lemma data_leb_iff a b :
  Data.leb a b = true <->
  Data.year a < Data.year b
  \/ (Data.year a = Data.year b
      /\ (Data.month a < Data.month b
          \/ (Data.month a = Data.month b /\ Data.day a <= Data.day b))).
Proof.
  unfold Data.leb, Data.compare.
  destruct (Nat.compare_spec (Data.year a) (Data.year b));
    destruct (Nat.compare_spec (Data.month a) (Data.month b));
    destruct (Nat.compare_spec (Data.day a) (Data.day b));
    split; intros; try discriminate; try lia; auto.
Qed.

Lemma data_leb_trans a b c :
  Data.leb a b = true -> Data.leb b c = true -> Data.leb a c = true.
Proof. rewrite !data_leb_iff. lia. Qed.

Lemma data_leb_total a b : Data.leb a b = false -> Data.leb b a = true.
Proof.
  intros H. apply data_leb_iff.
  assert (~ Data.leb a b = true) as N by congruence.
  rewrite data_leb_iff in N. lia.
Qed.

Lemma data_leb_refl a : Data.leb a a = true.
Proof. apply data_leb_iff. lia. Qed.

Lemma min_data_spec l m :
  min_data l = Some m ->
  In m l /\ forall d, In d l -> Data.leb m d = true.
Proof.
  revert m. induction l as [|x t IH]; simpl; intros m; [discriminate|].
  destruct (min_data t) as [m'|] eqn:E.
  - destruct (IH m' eq_refl) as [Hin Hle]. intros [= <-].
    destruct (Data.leb x m') eqn:L.
    + split; [now left|]. intros d [<-|Hd]; [apply data_leb_refl|].
      eapply data_leb_trans; eauto.
    + split; [now right|]. intros d [<-|Hd]; auto. now apply data_leb_total.
  - intros [= <-]. destruct t as [|y t]; [|simpl in E; destruct (min_data t); discriminate].
    split; [now left|]. intros d [<-|[]]. apply data_leb_refl.
Qed.

Lemma max_data_spec l m :
  max_data l = Some m ->
  In m l /\ forall d, In d l -> Data.leb d m = true.
Proof.
  revert m. induction l as [|x t IH]; simpl; intros m; [discriminate|].
  destruct (max_data t) as [m'|] eqn:E.
  - destruct (IH m' eq_refl) as [Hin Hle]. intros [= <-].
    destruct (Data.leb m' x) eqn:L.
    + split; [now left|]. intros d [<-|Hd]; [apply data_leb_refl|].
      eapply data_leb_trans; eauto.
    + split; [now right|]. intros d [<-|Hd]; auto. now apply data_leb_total.
  - intros [= <-]. destruct t as [|y t]; [|simpl in E; destruct (max_data t); discriminate].
    split; [now left|]. intros d [<-|[]]. apply data_leb_refl.
Qed.

(** X12. When the dashboard renders its analyses, the KPIs are the number
    of rows of the table, the earliest and the latest collection date
    among the rows that have one, both written day/month/year, with every
    dated row between them, and the mean of the sale prices present. *)
Theorem kpi_view (db : list registro) (flash : list string)
  (analyses : list (string * valor)) (figuras : list figura) :
  dashboard db = Pagina flash analyses figuras ->
  analyses <> [] ->
  exists df d0 d1,
    read_frame db = Some df
    /\ In ("kpi_total_registros", VInt (List.length db)) analyses
    /\ In ("kpi_data_inicio", VStr (Data.strftime_dmy d0)) analyses
    /\ In ("kpi_data_fim", VStr (Data.strftime_dmy d1)) analyses
    /\ In ("kpi_preco_medio_geral", VFloat (mean (map venda df))) analyses
    /\ In (Some d0) (map dia df) /\ In (Some d1) (map dia df)
    /\ (forall d, In (Some d) (map dia df) ->
          Data.leb d0 d = true /\ Data.leb d d1 = true).
Proof.
  unfold dashboard, banco_vazio.
  destruct (read_frame db) as [[|o df]|] eqn:R; intros H Hne;
    try (injection H as <- <- <-; congruence).
  pose proof (read_frame_length _ _ R) as L.
  unfold analisar in H.
  destruct (negb (coluna_numerica db)); [discriminate|].
  destruct (min_data _) as [d0|] eqn:M0; [|discriminate].
  destruct (max_data _) as [d1|] eqn:M1; [|discriminate].
  destruct (mode (o :: df)) as [|p t]; [discriminate|].
  destruct (hist 30 _) as [c|]; [|discriminate].
  injection H as <- <- <-.
  apply min_data_spec in M0 as [I0 H0]. apply max_data_spec in M1 as [I1 H1].
  rewrite in_dropna in I0, I1.
  exists (o :: df), d0, d1. rewrite <- L.
  split; [reflexivity|]. split; [left; reflexivity|].
  split; [do 1 right; left; reflexivity|].
  split; [do 2 right; left; reflexivity|].
  split; [do 3 right; left; reflexivity|].
  split; [exact I0|]. split; [exact I1|].
  intros d Hd. apply in_dropna in Hd. auto.
Qed.

Lemma kpi_view_witness :
  exists flash analyses figuras,
    dashboard db_empate = Pagina flash analyses figuras
    /\ exists df d0 d1,
         read_frame db_empate = Some df
         /\ In ("kpi_total_registros", VInt (List.length db_empate)) analyses
         /\ In ("kpi_data_inicio", VStr (Data.strftime_dmy d0)) analyses
         /\ In ("kpi_data_fim", VStr (Data.strftime_dmy d1)) analyses
         /\ In ("kpi_preco_medio_geral", VFloat (mean (map venda df))) analyses
         /\ In (Some d0) (map dia df) /\ In (Some d1) (map dia df)
         /\ (forall d, In (Some d) (map dia df) ->
               Data.leb d0 d = true /\ Data.leb d d1 = true).
Proof.
  do 3 eexists. split; [vm_compute; reflexivity|].
  eapply kpi_view; [vm_compute; reflexivity | discriminate].
Defined.

Lemma insert_data_in d l x : In x (insert_data d l) <-> x = d \/ In x l.
Proof.
  induction l as [|y t IH]; simpl; [intuition|].
  destruct (Data.compare d y) eqn:E; simpl.
  - apply data_compare_eq in E. subst. intuition.
  - intuition.
  - rewrite IH. intuition.
Qed.

Lemma insert_data_sorted d l :
  StronglySorted (fun a b => Data.compare a b = Lt) l ->
  StronglySorted (fun a b => Data.compare a b = Lt) (insert_data d l).
Proof.
  induction 1 as [|y t Hs IH Hy]; simpl.
  - constructor; constructor.
  - destruct (Data.compare d y) eqn:E.
    + now constructor.
    + constructor; [now constructor|]. constructor; auto.
      eapply Forall_impl; [|exact Hy]. intros z Hz. cbv beta in *.
      rewrite data_compare_lt_iff in *. lia.
    + constructor; auto. apply Forall_forall. intros z Hz.
      apply insert_data_in in Hz as [->|Hz].
      * now apply data_compare_gt.
      * rewrite Forall_forall in Hy. auto.
Qed.

(** X13. The time axis of the series, the index of the date-by-product
    table, holds each collection date of a row with a date and a product
    once, in calendar order. *)
Theorem indice_sorted (df : list obs) :
  StronglySorted (fun a b => Data.compare a b = Lt) (indice df)
  /\ forall d, In d (indice df) <->
               exists o, In o df /\ dia o = Some d /\ prod o <> None.
Proof.
  unfold indice. split.
  - induction (dropna (map dia (filter agrupavel df))) as [|x t IH]; simpl;
      [constructor | now apply insert_data_sorted].
  - intros d.
    assert (forall l, In d (fold_right insert_data [] l) <-> In d l) as Hin.
    { induction l as [|x t IH]; simpl; [tauto|].
      rewrite insert_data_in, IH. intuition. }
    rewrite Hin, in_dropna, in_map_iff. split.
    + intros (o & Ho & Hf). apply filter_In in Hf as [Hf Ha].
      exists o. split; auto. split; auto. unfold agrupavel in Ha.
      rewrite Ho in Ha. destruct (prod o); [discriminate|discriminate].
    + intros (o & Ho & Hd & Hp). exists o. split; auto. apply filter_In.
      split; auto. unfold agrupavel. rewrite Hd.
      destruct (prod o); [reflexivity|congruence].
Qed.

End DashboardFacts.

(** ** The products selected for the time series *)

Section Selection.

Import Dash.

Lemma insert_desc_in (f : string -> nat) p l x : In x (insert_desc f p l) <-> x = p \/ In x l.
Proof.
  induction l as [|y t IH]; simpl; [intuition|].
  destruct (f y <? f p); simpl; [intuition|]. rewrite IH. intuition.
Qed.

Lemma insert_desc_sorted (f : string -> nat) p l :
  StronglySorted (mais f) l -> StronglySorted (mais f) (insert_desc f p l).
Proof.
  induction 1 as [|y t Hs IH Hy]; simpl.
  - constructor; constructor.
  - destruct (f y <? f p) eqn:E.
    + apply Nat.ltb_lt in E. constructor; [now constructor|].
      constructor; [unfold mais; lia|].
      eapply Forall_impl; [|exact Hy]. unfold mais. intros; lia.
    + apply Nat.ltb_ge in E. constructor; auto. apply Forall_forall.
      intros z Hz. apply insert_desc_in in Hz as [->|Hz]; [exact E|].
      rewrite Forall_forall in Hy. auto.
Qed.

Lemma insert_desc_NoDup (f : string -> nat) p l :
  ~ In p l -> NoDup l -> NoDup (insert_desc f p l).
Proof.
  induction l as [|y t IH]; simpl; intros Hp Hn.
  - constructor; auto.
  - destruct (f y <? f p); [constructor; auto|].
    apply NoDup_cons_iff in Hn as [Hy Hn]. constructor.
    + rewrite insert_desc_in. intros [->|C]; auto.
    + apply IH; auto.
Qed.

Lemma fold_insert_desc (f : string -> nat) ps acc :
  StronglySorted (mais f) acc -> NoDup (ps ++ acc) ->
  let r := fold_left (fun a p => insert_desc f p a) ps acc in
  StronglySorted (mais f) r /\ NoDup r /\ forall x, In x r <-> In x ps \/ In x acc.
Proof.
  revert acc. induction ps as [|p t IH]; simpl; intros acc Hs Hn.
  - split; auto. split; auto. tauto.
  - apply NoDup_cons_iff in Hn as [Hp Hn].
    destruct (IH (insert_desc f p acc)) as (H1 & H2 & H3).
    + now apply insert_desc_sorted.
    + apply NoDup_app.
      * now apply NoDup_app_remove_r in Hn.
      * apply insert_desc_NoDup; [|now apply NoDup_app_remove_l in Hn].
        intros C. apply Hp. apply in_app_iff. now right.
      * intros x Hx C. apply insert_desc_in in C as [->|C].
        -- apply Hp. apply in_app_iff. now left.
        -- revert x Hx C. clear -Hn. induction t as [|y t IH]; simpl; [tauto|].
           apply NoDup_cons_iff in Hn as [Hy Hn]. intros x [->|Hx] C.
           ++ apply Hy. apply in_app_iff. now right.
           ++ eapply IH; eauto.
    + split; auto. split; auto. intros x. rewrite H3, insert_desc_in.
      intuition (subst; auto).
Qed.

Lemma sorted_app_rel (f : string -> nat) (l1 l2 : list string) :
  StronglySorted (mais f) (l1 ++ l2) ->
  forall x y, In x l1 -> In y l2 -> mais f x y.
Proof.
  induction l1 as [|a l1 IH]; simpl; intros Hs x y Hx Hy; [destruct Hx|].
  inversion Hs as [|? ? Hs' Hall]. subst. destruct Hx as [<-|Hx].
  - rewrite Forall_forall in Hall. apply Hall. apply in_app_iff. now right.
  - eapply IH; eauto.
Qed.

End Selection.

Section Principais.

Import Dash.

Lemma distintos_NoDup seen l : NoDup (distintos seen l).
Proof.
  revert seen. induction l as [|y t IH]; intros seen; simpl; [constructor|].
  destruct (in_dec string_dec y seen); auto. constructor; auto.
  rewrite in_distintos. simpl. tauto.
Qed.

Lemma principais_produtos_NoDup (df : list obs) :
  List.length (principais_produtos df) <= 4 /\ NoDup (principais_produtos df).
Proof.
  unfold principais_produtos, value_counts.
  destruct (fold_insert_desc (fun x => conta x df)
              (distintos [] (dropna (map prod df))) []) as (_ & Hn & _).
  { constructor. }
  { rewrite app_nil_r. apply distintos_NoDup. }
  split; [apply firstn_le_length|].
  rewrite <- (firstn_skipn 4 _) in Hn. now apply NoDup_app_remove_r in Hn.
Qed.

(** X14. The products selected for the time series are at most four, all
    different, each occurring in the table; no product left out occurs
    more often than a selected one; and when fewer than four are selected,
    every product of the table is selected. *)
Theorem principais_produtos_top (df : list obs) :
  List.length (principais_produtos df) <= 4
  /\ NoDup (principais_produtos df)
  /\ (forall p, In p (principais_produtos df) -> 1 <= conta p df)
  /\ (forall p q, In p (principais_produtos df) ->
                  ~ In q (principais_produtos df) ->
                  conta q df <= conta p df)
  /\ (List.length (principais_produtos df) < 4 ->
      forall p, 1 <= conta p df -> In p (principais_produtos df)).
Proof.
  unfold principais_produtos, value_counts.
  set (ps := distintos [] (dropna (map prod df))).
  set (g := fun x => conta x df).
  destruct (fold_insert_desc g ps []) as (Hs & Hn & Hin).
  { constructor. }
  { rewrite app_nil_r. apply distintos_NoDup. }
  set (L := fold_left (fun acc p => insert_desc g p acc) ps []) in *.
  assert (forall x, In x L <-> 1 <= conta x df) as HL.
  { intros x. rewrite Hin. unfold ps.
    rewrite in_distintos, in_dropna, conta_pos. simpl. tauto. }
  assert (forall x, In x (firstn 4 L) -> In x L) as Hsub.
  { intros x Hx. rewrite <- (firstn_skipn 4 L). apply in_app_iff. now left. }
  split; [apply firstn_le_length|]. split.
  { rewrite <- (firstn_skipn 4 L) in Hn. now apply NoDup_app_remove_r in Hn. }
  split; [intros p Hp; now apply HL, Hsub|]. split.
  - intros p q Hp Hq.
    destruct (Nat.eq_dec (conta q df) 0) as [->|Hne]; [lia|].
    assert (In q L) as HqL by (apply HL; lia).
    rewrite <- (firstn_skipn 4 L) in HqL, Hs.
    apply in_app_iff in HqL as [C|HqL]; [contradiction|].
    apply (sorted_app_rel g _ _ Hs p q Hp HqL).
  - intros Hlt p Hp. apply HL in Hp.
    rewrite firstn_all2; auto.
    rewrite length_firstn in Hlt. lia.
Qed.

End Principais.

(** ** The geographic ranking *)

Section Ranking.

Import Dash.

Lemma ss_app_inv {A : Type} (R : A -> A -> Prop) (l1 l2 : list A) :
  StronglySorted R (l1 ++ l2) ->
  StronglySorted R l1 /\ StronglySorted R l2
  /\ forall x y, In x l1 -> In y l2 -> R x y.
Proof.
  induction l1 as [|a l1 IH]; simpl; intros Hs.
  - split; [constructor|]. split; auto. intros ? ? [].
  - inversion Hs as [|? ? Hs' Hall]. subst.
    destruct (IH Hs') as (H1 & H2 & H3). rewrite Forall_forall in Hall.
    split; [|split; auto].
    + constructor; auto. apply Forall_forall. intros x Hx. apply Hall.
      apply in_app_iff. now left.
    + intros x y [<-|Hx] Hy; auto. apply Hall. apply in_app_iff. now right.
Qed.

Lemma ss_app {A : Type} (R : A -> A -> Prop) (l1 l2 : list A) :
  StronglySorted R l1 -> StronglySorted R l2 ->
  (forall x y, In x l1 -> In y l2 -> R x y) ->
  StronglySorted R (l1 ++ l2).
Proof.
  induction 1 as [|a l1 Hs IH Hall]; simpl; intros H2 H; auto.
  constructor; [apply IH; auto|]. apply Forall_forall. intros x Hx.
  apply in_app_iff in Hx as [Hx|Hx]; [|apply H; auto].
  rewrite Forall_forall in Hall. auto.
Qed.

Lemma ss_map {A B : Type} (R' : A -> A -> Prop) (R : B -> B -> Prop)
  (g : A -> B) (l : list A) :
  (forall a b, R' a b -> R (g a) (g b)) ->
  StronglySorted R' l -> StronglySorted R (map g l).
Proof.
  intros H. induction 1 as [|a l Hs IH Hall]; simpl; constructor; auto.
  apply Forall_forall. intros x Hx. apply in_map_iff in Hx as (y & <- & Hy).
  rewrite Forall_forall in Hall. auto.
Qed.

Lemma insert_valor_perm asc x l : Permutation (x :: l) (insert_valor asc x l).
Proof.
  induction l as [|y t IH]; simpl; auto.
  destruct (if asc then _ else _); auto.
  eapply perm_trans; [apply perm_swap|]. now constructor.
Qed.

Lemma insert_valor_sorted asc x l :
  StronglySorted (ordem_q asc) l ->
  StronglySorted (ordem_q asc) (insert_valor asc x l).
Proof.
  induction 1 as [|y t Hs IH Hy]; simpl.
  - constructor; constructor.
  - assert (forall z, ordem_q asc x y -> ordem_q asc y z -> ordem_q asc x z) as Tr.
    { unfold ordem_q. destruct asc; intros; lra. }
    destruct asc; simpl.
    + destruct (Qle_bool (snd y) (snd x)) eqn:E; simpl.
      * apply Qle_bool_iff in E. constructor; auto. apply Forall_forall.
        intros z Hz. apply (Permutation_in _ (Permutation_sym (insert_valor_perm true x t))) in Hz.
        destruct Hz as [<-|Hz]; [exact E|]. rewrite Forall_forall in Hy. auto.
      * assert (snd x < snd y)%Q as L.
        { apply Qnot_le_lt. intros C. apply Qle_bool_iff in C. congruence. }
        constructor; [now constructor|]. constructor; [unfold ordem_q; lra|].
        eapply Forall_impl; [|exact Hy]. intros z Hz. apply Tr; auto.
        unfold ordem_q. lra.
    + destruct (Qle_bool (snd x) (snd y)) eqn:E; simpl.
      * apply Qle_bool_iff in E. constructor; auto. apply Forall_forall.
        intros z Hz. apply (Permutation_in _ (Permutation_sym (insert_valor_perm false x t))) in Hz.
        destruct Hz as [<-|Hz]; [exact E|]. rewrite Forall_forall in Hy. auto.
      * assert (snd y < snd x)%Q as L.
        { apply Qnot_le_lt. intros C. apply Qle_bool_iff in C. congruence. }
        constructor; [now constructor|]. constructor; [unfold ordem_q; lra|].
        eapply Forall_impl; [|exact Hy]. intros z Hz. apply Tr; auto.
        unfold ordem_q. lra.
Qed.

Lemma fold_insert_valor asc l acc :
  StronglySorted (ordem_q asc) acc ->
  let r := fold_left (fun a x => insert_valor asc x a) l acc in
  StronglySorted (ordem_q asc) r /\ Permutation (l ++ acc) r.
Proof.
  revert acc. induction l as [|x t IH]; simpl; intros acc Hs; [auto|].
  destruct (IH (insert_valor asc x acc)) as [H1 H2];
    [now apply insert_valor_sorted|].
  split; auto. eapply perm_trans; [|exact H2].
  eapply perm_trans; [apply Permutation_middle|].
  apply Permutation_app_head. apply insert_valor_perm.
Qed.

Lemma presentes_ausentes l :
  Permutation l (map (fun x => (fst x, Some (snd x))) (presentes l) ++ ausentes l).
Proof.
  induction l as [|[e [v|]] t IH]; simpl; auto.
  apply Permutation_cons_app. exact IH.
Qed.

Lemma ausentes_sorted asc l :
  StronglySorted (fun a b => ordem asc (snd a) (snd b)) (ausentes l).
Proof.
  unfold ausentes. induction l as [|[e [v|]] t IH]; simpl; auto;
    [constructor|]. constructor; auto. apply Forall_forall.
  intros x Hx. apply filter_In in Hx as [_ Hx]. simpl.
  destruct (snd x); [discriminate|exact I].
Qed.

(** [sort_values] rearranges the entries and puts them in order. *)
Lemma sort_values_spec asc l :
  Permutation l (sort_values asc l)
  /\ StronglySorted (fun a b => ordem asc (snd a) (snd b)) (sort_values asc l).
Proof.
  unfold sort_values.
  destruct (fold_insert_valor asc (presentes l) []) as [Hs Hp]; [constructor|].
  rewrite app_nil_r in Hp. split.
  - eapply perm_trans; [apply presentes_ausentes|].
    apply Permutation_app_tail. now apply Permutation_map.
  - apply ss_app.
    + eapply ss_map; [|exact Hs]. intros a b. unfold ordem_q, ordem. simpl.
      destruct asc; auto.
    + apply ausentes_sorted.
    + intros x y _ Hy. unfold ausentes in Hy. apply filter_In in Hy as [_ Hy].
      destruct (snd y); [discriminate|]. unfold ordem. destruct (snd x); exact I.
Qed.

Lemma preco_por_estado_in df e v :
  In (e, v) (preco_por_estado df) <->
  (exists o, In o df /\ uf o = Some e)
  /\ v = mean (map venda (filter (no_estado e) df)).
Proof.
  unfold preco_por_estado. rewrite in_map_iff. split.
  - intros (x & [= <- <-] & Hx). apply in_sorted_nomes, in_dropna in Hx.
    apply in_map_iff in Hx as (o & Ho & Hin). split; [exists o; auto|reflexivity].
  - intros [(o & Hin & Ho) ->]. exists e. split; [reflexivity|].
    apply in_sorted_nomes, in_dropna. apply in_map_iff. exists o. auto.
Qed.

(** X16. When the dashboard renders its analyses, the two state rankings
    are taken from the mean sale price per state: each has five entries,
    or one per state when there are fewer; the cheapest list is in
    ascending order and no state left out of it is cheaper than a state
    in it; the most expensive list is in descending order and no state
    left out of it is more expensive than a state in it; a state without
    any price ranks after every priced state in both orders. *)
Theorem geographic_view (db : list registro) (flash : list string)
  (analyses : list (string * valor)) (figuras : list figura) :
  dashboard db = Pagina flash analyses figuras ->
  analyses <> [] ->
  exists df baratos caros,
    read_frame db = Some df
    /\ In ("top_5_estados_baratos", VDict baratos) analyses
    /\ In ("top_5_estados_caros", VDict caros) analyses
    /\ List.length baratos = Nat.min 5 (List.length (preco_por_estado df))
    /\ List.length caros = Nat.min 5 (List.length (preco_por_estado df))
    /\ incl baratos (preco_por_estado df)
    /\ incl caros (preco_por_estado df)
    /\ StronglySorted (fun a b => ordem true (snd a) (snd b)) baratos
    /\ StronglySorted (fun a b => ordem false (snd a) (snd b)) caros
    /\ (forall e e', In e baratos -> In e' (preco_por_estado df) ->
                     ~ In e' baratos -> ordem true (snd e) (snd e'))
    /\ (forall e e', In e caros -> In e' (preco_por_estado df) ->
                     ~ In e' caros -> ordem true (snd e') (snd e)).
Proof.
  unfold dashboard, banco_vazio.
  destruct (read_frame db) as [[|o df0]|] eqn:R; intros H Hne;
    try (injection H as <- <- <-; congruence).
  unfold analisar in H.
  destruct (negb (coluna_numerica db)); [discriminate|].
  destruct (min_data _) as [d0|]; [|discriminate].
  destruct (max_data _) as [d1|]; [|discriminate].
  destruct (mode (o :: df0)) as [|p t]; [discriminate|].
  destruct (hist 30 _) as [c|]; [|discriminate].
  injection H as <- <- <-.
  set (df := o :: df0). set (est := preco_por_estado df).
  destruct (sort_values_spec true est) as [Hp Hs].
  set (s := sort_values true est) in *.
  destruct (sort_values_spec false (tail 5 s)) as [Hp' Hs'].
  pose proof (Permutation_length Hp) as Ls.
  exists df, (head 5 s), (sort_values false (tail 5 s)).
  split; [reflexivity|].
  split; [do 5 right; left; reflexivity|].
  split; [do 6 right; left; reflexivity|].
  assert (forall n x, In x (firstn n s) -> In x est) as Hf.
  { intros n x Hx. apply (Permutation_in _ (Permutation_sym Hp)).
    rewrite <- (firstn_skipn n s). apply in_app_iff. now left. }
  assert (forall n x, In x (skipn n s) -> In x est) as Hk.
  { intros n x Hx. apply (Permutation_in _ (Permutation_sym Hp)).
    rewrite <- (firstn_skipn n s). apply in_app_iff. now right. }
  assert (forall n, StronglySorted (fun a b => ordem true (snd a) (snd b))
                      (firstn n s ++ skipn n s)) as Hsplit.
  { intros n. now rewrite firstn_skipn. }
  unfold head, tail in *. fold est.
  split; [rewrite length_firstn; lia|].
  split; [rewrite <- (Permutation_length Hp'), length_skipn; lia|].
  split; [intros x Hx; eapply Hf; eauto|].
  split.
  { intros x Hx. apply (Permutation_in _ (Permutation_sym Hp')) in Hx.
    eapply Hk; eauto. }
  split; [apply (ss_app_inv _ _ _ (Hsplit 5))|].
  split; [exact Hs'|].
  split.
  - intros e e' He He' Hn.
    apply (Permutation_in _ Hp) in He'.
    rewrite <- (firstn_skipn 5 s) in He'.
    apply in_app_iff in He' as [C|He']; [contradiction|].
    apply (ss_app_inv _ _ _ (Hsplit 5)); auto.
  - intros e e' He He' Hn.
    apply (Permutation_in _ (Permutation_sym Hp')) in He.
    apply (Permutation_in _ Hp) in He'.
    rewrite <- (firstn_skipn (List.length s - 5) s) in He'.
    apply in_app_iff in He' as [He'|C].
    + apply (ss_app_inv _ _ _ (Hsplit (List.length s - 5))); auto.
    + exfalso. apply Hn. now apply (Permutation_in _ Hp').
Qed.

Lemma geographic_view_witness :
  exists flash analyses figuras,
    dashboard db_empate = Pagina flash analyses figuras
    /\ exists df baratos caros,
         read_frame db_empate = Some df
         /\ In ("top_5_estados_baratos", VDict baratos) analyses
         /\ In ("top_5_estados_caros", VDict caros) analyses
         /\ List.length baratos = Nat.min 5 (List.length (preco_por_estado df))
         /\ List.length caros = Nat.min 5 (List.length (preco_por_estado df))
         /\ incl baratos (preco_por_estado df)
         /\ incl caros (preco_por_estado df)
         /\ StronglySorted (fun a b => ordem true (snd a) (snd b)) baratos
         /\ StronglySorted (fun a b => ordem false (snd a) (snd b)) caros
         /\ (forall e e', In e baratos -> In e' (preco_por_estado df) ->
                          ~ In e' baratos -> ordem true (snd e) (snd e'))
         /\ (forall e e', In e caros -> In e' (preco_por_estado df) ->
                          ~ In e' caros -> ordem true (snd e') (snd e)).
Proof.
  do 3 eexists. split; [vm_compute; reflexivity|].
  eapply geographic_view; [vm_compute; reflexivity | discriminate].
Defined.

(** X17. The mean price per state has one entry for each state that
    occurs in the table, and the entry of a state is the mean of the sale
    prices present on the rows of that state. *)
Theorem preco_por_estado_entries (df : list obs) :
  NoDup (map fst (preco_por_estado df))
  /\ forall e v,
       In (e, v) (preco_por_estado df) <->
       (exists o, In o df /\ uf o = Some e)
       /\ v = mean (map venda (filter (no_estado e) df)).
Proof.
  split; [|apply preco_por_estado_in].
  unfold preco_por_estado. rewrite map_map. simpl. rewrite map_id.
  pose proof (sorted_nomes (dropna (map uf df))) as Hs.
  induction Hs as [|a l Hs IH Hall]; constructor; auto.
  intros C. rewrite Forall_forall in Hall. specialize (Hall a C).
  unfold antes in Hall. now rewrite string_compare_refl in Hall.
Qed.

End Ranking.

(** ** The lines of the time-series figure *)

Section Lines.

Import Dash.

Lemma in_colunas df p :
  In p (colunas df) <->
  exists o, In o df /\ prod o = Some p /\ dia o <> None.
Proof.
  unfold colunas. rewrite in_sorted_nomes, in_dropna, in_map_iff. split.
  - intros (o & Ho & Hf). apply filter_In in Hf as [Hf Ha].
    exists o. split; auto. split; auto. unfold agrupavel in Ha.
    destruct (dia o); [discriminate|]. discriminate.
  - intros (o & Ho & Hp & Hd). exists o. split; auto. apply filter_In.
    split; auto. unfold agrupavel. rewrite Hp.
    destruct (dia o); [reflexivity|congruence].
Qed.

(** X8. The figure of the time series has a line for a product exactly
    when the product is one of the four selected and has a row with a
    date; the line is the 30-row rolling mean of the product's column and
    has one value per date of the axis; no product has two lines and there
    are at most four lines. *)
Theorem plot_serie_temporal_lines (df : list obs) :
  (forall p line,
      In (p, line) (plot_serie_temporal df) <->
      In p (principais_produtos df)
      /\ (exists o, In o df /\ prod o = Some p /\ dia o <> None)
      /\ line = rolling_mean 30 1 (coluna df p))
  /\ (forall p line, In (p, line) (plot_serie_temporal df) ->
                     List.length line = List.length (indice df))
  /\ NoDup (map fst (plot_serie_temporal df))
  /\ List.length (plot_serie_temporal df) <= 4.
Proof.
  assert (forall p line,
      In (p, line) (plot_serie_temporal df) <->
      In p (principais_produtos df)
      /\ (exists o, In o df /\ prod o = Some p /\ dia o <> None)
      /\ line = rolling_mean 30 1 (coluna df p)) as Hin.
  { intros p line. unfold plot_serie_temporal. rewrite in_map_iff. split.
    - intros (x & [= <- <-] & Hx). apply filter_In in Hx as [Hx Hc].
      split; auto. split; [|reflexivity]. apply in_colunas.
      destruct (in_dec string_dec x (colunas df)); [auto|discriminate].
    - intros (Hp & Ho & ->). exists p. split; [reflexivity|].
      apply filter_In. split; auto. apply in_colunas in Ho.
      destruct (in_dec string_dec p (colunas df)); [reflexivity|contradiction]. }
  destruct (principais_produtos_NoDup df) as (Hlen & Hnd).
  split; [exact Hin|]. split; [|split].
  - intros p line H. apply Hin in H as (_ & _ & ->).
    unfold rolling_mean. rewrite roll_length. unfold coluna.
    now rewrite length_map.
  - unfold plot_serie_temporal. rewrite map_map. simpl. rewrite map_id.
    apply NoDup_filter. exact Hnd.
  - unfold plot_serie_temporal. rewrite length_map.
    eapply Nat.le_trans; [apply filter_length_le|exact Hlen].
Qed.

End Lines.
